(** * peace-timer: the countdown component and the upload relay

    A shallow embedding of [src/App.jsx] (the React countdown component) and
    of [sever/server.js] (the Express upload relay), with the properties of
    the design document stated over it.

    Conventions of the embedding.

    - [secondsLeft], [Date.now()] and [endRef.current] hold whole numbers in
      the program (300, [Math.round] of something, [Math.max(0, Math.round ..)],
      a millisecond clock), so they are integers [Z] here.
    - The other numbers ([Number(minutesInput)], the progress fraction, the
      warning threshold) are JavaScript numbers: IEEE 754 doubles, with the
      arithmetic of [SpecFloat] (correct rounding, overflow to Infinity,
      underflow, signed zeros, NaN).
    - A JavaScript string is a [string] of Latin-1 characters.
    - React state is a record; a ref ([endRef], [timerRef]) is a field of the
      same record that handlers update in place.  The browser's table of
      active interval timers is the finite set [live].  Every event (a click,
      a keystroke in the minutes field, the firing of an interval) runs its
      handler, then the render it causes and the effects of that render,
      before the next event is taken. *)

From Stdlib Require Import ZArith QArith Qround Bool List Ascii String Lia.
From Stdlib Require Import SpecFloat.
From Stdlib Require DecimalString DecimalPos DecimalZ.
From stdpp Require Import gmap strings.
Import ListNotations.

#[local] Set Warnings "-clear-no-such-hyp".

Local Open Scope string_scope.
Local Open Scope Z_scope.

(** ** JavaScript numbers *)

Module JS.

(** A JavaScript number is an IEEE 754 binary64 value; the arithmetic is
    that of [SpecFloat], rounding to nearest, ties to even. *)
Definition prec : Z := 53.
Definition emax : Z := 1024.

Definition jsnum : Type := spec_float.

Definition JNaN : jsnum := S754_nan.

(** The double nearest to a whole number (the number itself below 2^53). *)
Definition of_Z (z : Z) : jsnum := binary_normalize prec emax z 0 false.

(** [x * y] and [x / y] *)
Definition mul (x y : jsnum) : jsnum := SFmul prec emax x y.
Definition div (x y : jsnum) : jsnum := SFdiv prec emax x y.

(** [x <= y]: false as soon as one side is NaN. *)
Definition le (x y : jsnum) : bool := SFleb x y.

(** [Number.isFinite(x)] *)
Definition isFinite (x : jsnum) : bool :=
  match x with
  | S754_zero _ | S754_finite _ _ _ => true
  | _ => false
  end.

(** The exact value of a double that is neither NaN nor an infinity. *)
Definition magnitude (m : positive) (e : Z) : Q :=
  if 0 <=? e then inject_Z (Zpos m * 2 ^ e)
  else Zpos m # Z.to_pos (2 ^ (- e)).

Definition value (x : jsnum) : option Q :=
  match x with
  | S754_zero _ => Some 0%Q
  | S754_finite s m e =>
      Some (if s then Qopp (magnitude m e) else magnitude m e)
  | _ => None
  end.

(** [Math.round] on an exact value: the nearest integer, a tie going to the
    larger one ([Math.round(2.5) = 3], [Math.round(-2.5) = -2]). *)
Definition round (q : Q) : Z := Qfloor (q + (1 # 2)).

(** What [Math.round] and [Math.ceil] return: a whole number, or NaN or an
    infinity as their argument is. *)
Inductive whole : Type :=
  | WNaN
  | WInf (neg : bool)
  | WInt (z : Z).

(** [Math.round(x)] and [Math.ceil(x)] on a double: computed on its exact
    value. *)
Definition Math_round (x : jsnum) : whole :=
  match x with
  | S754_nan => WNaN
  | S754_infinity s => WInf s
  | _ => match value x with Some q => WInt (round q) | None => WNaN end
  end.

Definition ceil (x : jsnum) : whole :=
  match x with
  | S754_nan => WNaN
  | S754_infinity s => WInf s
  | _ => match value x with Some q => WInt (Qceiling q) | None => WNaN end
  end.

(** [z <= w] for a whole number [z]. *)
Definition le_whole (z : Z) (w : whole) : bool :=
  match w with
  | WNaN => false
  | WInf neg => negb neg
  | WInt c => z <=? c
  end.

(** *** [Number(s)] on a string

    Leading and trailing white space is dropped; the empty string is 0;
    then an optional sign followed by [Infinity] or a decimal literal
    (digits, optional fraction, optional exponent), or an unsigned
    [0x], [0o] or [0b] literal.  Anything else is NaN. *)

Definition code (c : ascii) : Z := Z.of_N (Ascii.N_of_ascii c).

(** The characters that [\s] matches, among U+0000..U+00FF. *)
Definition is_space (c : ascii) : bool :=
  let n := code c in
  ((9 <=? n) && (n <=? 13)) || (n =? 32) || (n =? 160).

Definition digit_of (radix : Z) (c : ascii) : option Z :=
  let n := code c in
  let d :=
    if (48 <=? n) && (n <=? 57) then Some (n - 48)
    else if (97 <=? n) && (n <=? 102) then Some (n - 87)
    else if (65 <=? n) && (n <=? 70) then Some (n - 55)
    else None in
  match d with
  | Some v => if v <? radix then Some v else None
  | None => None
  end.

Fixpoint trim_left (s : string) : string :=
  match s with
  | String c s' => if is_space c then trim_left s' else s
  | EmptyString => EmptyString
  end.

Fixpoint trim_right (s : string) : string :=
  match s with
  | String c s' =>
      match trim_right s' with
      | EmptyString => if is_space c then EmptyString else String c EmptyString
      | t => String c t
      end
  | EmptyString => EmptyString
  end.

(** The longest prefix of digits: its value, its length, and the rest. *)
Fixpoint digits (radix : Z) (s : string) (acc : Z) (len : Z)
  : Z * Z * string :=
  match s with
  | String c s' =>
      match digit_of radix c with
      | Some d => digits radix s' (radix * acc + d) (len + 1)
      | None => (acc, len, s)
      end
  | EmptyString => (acc, len, s)
  end.

(** The double nearest to [m * 10^e], for a decimal literal with digits [m]
    and exponent [e]; [neg] is its sign. *)
Definition of_decimal (neg : bool) (m e : Z) : jsnum :=
  match m with
  | Zpos p =>
      if 0 <=? e then binary_round prec emax neg (Z.to_pos (Zpos p * 10 ^ e)) 0
      else div (S754_finite neg p 0)
               (S754_finite false (Z.to_pos (10 ^ (- e))) 0)
  | _ => S754_zero neg
  end.

Definition exponent (s : string) : option Z :=
  match s with
  | EmptyString => Some 0
  | String c s' =>
      if (code c =? 101) || (code c =? 69) then
        let '(neg, s'') :=
          match s' with
          | String "-" t => (true, t)
          | String "+" t => (false, t)
          | _ => (false, s')
          end in
        match digits 10 s'' 0 0 with
        | (v, len, EmptyString) =>
            if 0 <? len then Some (if neg then - v else v) else None
        | _ => None
        end
      else None
  end.

(** A decimal literal: its digits as a whole number and its power of ten. *)
Definition decimal (s : string) : option (Z * Z) :=
  let '(ip, ilen, r) := digits 10 s 0 0 in
  let '(m, flen, r') :=
    match r with
    | String "." t => let '(m, l, r') := digits 10 t ip 0 in (m, l, r')
    | _ => (ip, 0, r)
    end in
  if 0 <? ilen + flen then
    match exponent r' with
    | Some e => Some (m, e - flen)
    | None => None
    end
  else None.

Definition radix_literal (radix : Z) (s : string) : jsnum :=
  match digits radix s 0 0 with
  | (v, len, EmptyString) => if 0 <? len then of_Z v else JNaN
  | _ => JNaN
  end.

Definition signed (neg : bool) (s : string) : jsnum :=
  if String.eqb s "Infinity" then S754_infinity neg
  else match decimal s with
       | Some (m, e) => of_decimal neg m e
       | None => JNaN
       end.

Definition Number (s : string) : jsnum :=
  match trim_right (trim_left s) with
  | EmptyString => of_Z 0
  | String "-" t => signed true t
  | String "+" t => signed false t
  | String "0" (String c t) as u =>
      if (code c =? 120) || (code c =? 88) then radix_literal 16 t
      else if (code c =? 111) || (code c =? 79) then radix_literal 8 t
      else if (code c =? 98) || (code c =? 66) then radix_literal 2 t
      else signed false u
  | u => signed false u
  end.

End JS.

(** ** The countdown component ([src/App.jsx]) *)

Module Timer.

(** The component's state and refs, and the browser's interval timers.
    [bgUrl] and [uploadingToServer] belong to the background picker and
    never meet the countdown, so they are left out. *)
Record State : Type := mkState {
  secondsLeft : Z;            (* useState(300) *)
  running : bool;             (* useState(false) *)
  endRef : option Z;          (* useRef(null): endRef.current *)
  timerRef : option nat;      (* useRef(null): timerRef.current *)
  showControls : bool;        (* useState(false) *)
  minutesInput : string;      (* useState('') *)
  live : gset nat;            (* the browser's active intervals *)
  nextTimer : nat             (* the handle the next setInterval returns *)
}.

Definition initial : State :=
  {| secondsLeft := 300; running := false; endRef := None; timerRef := None;
     showControls := false; minutesInput := ""; live := ∅; nextTimer := 1 |}.

Definition set_secondsLeft (v : Z) (st : State) : State :=
  mkState v (running st) (endRef st) (timerRef st) (showControls st)
    (minutesInput st) (live st) (nextTimer st).
Definition set_running (v : bool) (st : State) : State :=
  mkState (secondsLeft st) v (endRef st) (timerRef st) (showControls st)
    (minutesInput st) (live st) (nextTimer st).
Definition set_endRef (v : option Z) (st : State) : State :=
  mkState (secondsLeft st) (running st) v (timerRef st) (showControls st)
    (minutesInput st) (live st) (nextTimer st).
Definition set_showControls (v : bool) (st : State) : State :=
  mkState (secondsLeft st) (running st) (endRef st) (timerRef st) v
    (minutesInput st) (live st) (nextTimer st).
Definition set_minutesInput (v : string) (st : State) : State :=
  mkState (secondsLeft st) (running st) (endRef st) (timerRef st)
    (showControls st) v (live st) (nextTimer st).

(** [clearInterval(h)]: nothing happens for [null] or a dead handle. *)
Definition clearInterval (h : option nat) (st : State) : State :=
  match h with
  | Some i =>
      mkState (secondsLeft st) (running st) (endRef st) (timerRef st)
        (showControls st) (minutesInput st) (live st ∖ {[ i ]}) (nextTimer st)
  | None => st
  end.

(** [timerRef.current = setInterval(callback, 250)].  Every interval of the
    component runs the same callback ([tick] below), so a live handle is all
    there is to record. *)
Definition setInterval_into_timerRef (st : State) : State :=
  mkState (secondsLeft st) (running st) (endRef st) (Some (nextTimer st))
    (showControls st) (minutesInput st)
    ({[ nextTimer st ]} ∪ live st) (S (nextTimer st)).

(** [!endRef.current] *)
Definition endRef_falsy (st : State) : bool :=
  match endRef st with
  | None => true
  | Some e => e =? 0
  end.

(** [endRef.current] where a number is wanted: [null] counts as 0. *)
Definition endRef_number (st : State) : Z :=
  match endRef st with
  | Some e => e
  | None => 0
  end.

(** [Math.round((endRef.current - Date.now()) / 1000)] *)
Definition round_seconds (ms : Z) : Z := JS.round (inject_Z ms / 1000).

(** The interval callback (lines 44-57). *)
Definition tick (now : Z) (st : State) : State :=
  let remain := Z.max 0 (round_seconds (endRef_number st - now)) in
  let st := set_secondsLeft remain st in
  if remain <=? 0 then
    set_endRef None (set_running false (clearInterval (timerRef st) st))
  else st.

(** The cleanup returned by the [running] effect (line 62). *)
Definition effect_cleanup (st : State) : State :=
  clearInterval (timerRef st) st.

(** The body of the [running] effect (lines 40-60). *)
Definition effect_running (now : Z) (st : State) : State :=
  if running st then
    let st :=
      if endRef_falsy st
      then set_endRef (Some (now + secondsLeft st * 1000)) st
      else st in
    setInterval_into_timerRef (clearInterval (timerRef st) st)
  else clearInterval (timerRef st) st.

(** What React does once a handler has returned: the component renders
    again, and the effect whose dependency list is [[running]] is cleaned
    up and run again exactly when [running] differs from the previous
    render. *)
Definition commit (now : Z) (before after : State) : State :=
  if Bool.eqb (running before) (running after) then after
  else effect_running now (effect_cleanup after).

(** *** Control actions.  A handler that calls [alert] returns the message. *)

Definition applyMinutes (st : State) : State * option string :=
  let n := JS.Number (minutesInput st) in
  if negb (JS.isFinite n) || JS.le n (JS.of_Z 0)
  then (st, Some "Enter minutes > 0")
  else
    let st' :=
      match JS.Math_round (JS.mul n (JS.of_Z 60)) with
      | JS.WInt z => set_secondsLeft z st
      | _ =>
          (* [n * 60] overflows to Infinity (more than 1e306 minutes): the
             component would display Infinity, which the whole-number
             [secondsLeft] of this model cannot hold; it is left as it is *)
          st
      end in
    (set_endRef None (set_running false st'), None).

Definition startTimer (now : Z) (st : State) : State * option string :=
  if secondsLeft st <=? 0 then (st, Some "Set minutes first")
  else
    (set_running true
       (set_endRef (Some (now + secondsLeft st * 1000))
          (set_showControls false st)),
     None).

Definition pauseTimer (st : State) : State :=
  set_endRef None (set_running false (clearInterval (timerRef st) st)).

Definition resumeTimer (now : Z) (st : State) : State :=
  if secondsLeft st <=? 0 then st
  else set_running true (set_endRef (Some (now + secondsLeft st * 1000)) st).

Definition resetTimer (st : State) : State :=
  set_secondsLeft 0
    (set_endRef None (set_running false (clearInterval (timerRef st) st))).

(** *** Events *)

Inductive action : Type :=
  | ChangeMinutes (s : string)  (* onChange of the minutes field *)
  | ClickSet
  | ClickStart
  | ClickPause
  | ClickResume
  | ClickReset
  | ClickGear
  | IntervalFires (i : nat).    (* the browser runs interval [i]'s callback *)

(** The handler of an action, [now] being what [Date.now()] returns. An
    interval that has been cleared does not fire. *)
Definition handle (now : Z) (a : action) (st : State) : State :=
  match a with
  | ChangeMinutes s => set_minutesInput s st
  | ClickSet => fst (applyMinutes st)
  | ClickStart => fst (startTimer now st)
  | ClickPause => pauseTimer st
  | ClickResume => resumeTimer now st
  | ClickReset => resetTimer st
  | ClickGear => set_showControls (negb (showControls st)) st
  | IntervalFires i => if decide (i ∈ live st) then tick now st else st
  end.

Definition alerts (now : Z) (a : action) (st : State) : option string :=
  match a with
  | ClickSet => snd (applyMinutes st)
  | ClickStart => snd (startTimer now st)
  | _ => None
  end.

Definition step (ev : Z * action) (st : State) : State :=
  commit (fst ev) st (handle (fst ev) (snd ev) st).

Fixpoint run (evs : list (Z * action)) (st : State) : State :=
  match evs with
  | [] => st
  | ev :: evs' => run evs' (step ev st)
  end.

(** *** What the render shows *)

(** A string or a number, as [minutesInput || x] yields. *)
Inductive jsval : Type :=
  | VStr (s : string)
  | VNum (n : JS.jsnum).

(** [s || d] for a string [s]: the empty string is the only falsy one. *)
Definition or_else (s : string) (d : JS.jsnum) : jsval :=
  match s with
  | EmptyString => VNum d
  | _ => VStr s
  end.

Definition ToNumber (v : jsval) : JS.jsnum :=
  match v with
  | VStr s => JS.Number s
  | VNum n => n
  end.

(** [Number(minutesInput || secondsLeft / 60) * 60], the divisor of line 30. *)
Definition progressDivisor (st : State) : JS.jsnum :=
  JS.mul
    (ToNumber (or_else (minutesInput st)
                 (JS.div (JS.of_Z (secondsLeft st)) (JS.of_Z 60))))
    (JS.of_Z 60).

(** [secondsLeft / (Number(minutesInput || secondsLeft / 60) * 60)]: the
    fraction of the ring that [progress] multiplies by the circumference. *)
Definition progressFraction (st : State) : JS.jsnum :=
  JS.div (JS.of_Z (secondsLeft st)) (progressDivisor st).

(** [Math.ceil((Number(minutesInput || 5) * 60) / 4)] (line 297). *)
Definition warningThreshold (st : State) : JS.whole :=
  JS.ceil
    (JS.div
       (JS.mul (ToNumber (or_else (minutesInput st) (JS.of_Z 5))) (JS.of_Z 60))
       (JS.of_Z 4)).

(** Whether the [cs-warning] block is rendered (lines 297-302). *)
Definition warningShown (st : State) : bool :=
  JS.le_whole (secondsLeft st) (warningThreshold st)
  && (0 <? secondsLeft st).

(** Whether the "Time up!" caption is rendered (line 305). *)
Definition timeUpShown (st : State) : bool := secondsLeft st =? 0.

End Timer.

(** ** The vocabulary of the design document *)

Module Design.
Import Timer.

(** The component keeps no phase variable: its run state is the boolean
    [running], the ref [endRef] and the displayed [secondsLeft].  A phase of
    the design document is read off these; [Idle] and [Paused] are the same
    states of the component, and [Expired] is a stopped countdown showing
    zero. *)
Inductive Phase : Type := Idle | Running | Paused | Expired.

Definition in_phase (p : Phase) (st : State) : Prop :=
  match p with
  | Running => running st = true
  | Idle | Paused => running st = false /\ endRef st = None
  | Expired => running st = false /\ endRef st = None /\ secondsLeft st = 0
  end.

(** [remaining = max(0, round((targetEpochMillis - now) / 1000))] *)
Definition remaining (targetEpochMillis now : Z) : Z :=
  Z.max 0 (JS.round (inject_Z (targetEpochMillis - now) / 1000)).

(** The design document's [totalSeconds], "the duration configured by the
    operator's last Set": the component has no such field, so it is read off
    the history of events, as the value the last accepted Set stored (300
    before any). *)
Fixpoint totalSeconds_from (total : Z) (evs : list (Z * action)) (st : State)
  : Z :=
  match evs with
  | [] => total
  | ev :: evs' =>
      let total' :=
        match snd ev, applyMinutes st with
        | ClickSet, (st', None) => secondsLeft st'
        | _, _ => total
        end in
      totalSeconds_from total' evs' (step ev st)
  end.

Definition totalSeconds (evs : list (Z * action)) : Z :=
  totalSeconds_from 300 evs initial.

(** [progressFraction = remainingSeconds / totalSeconds], and 0 when
    [totalSeconds = 0]. *)
Definition spec_progressFraction (remainingSeconds totalSeconds : Z) : Q :=
  if totalSeconds =? 0 then 0
  else inject_Z remainingSeconds / inject_Z totalSeconds.

(** [isInFinalQuarter = remainingSeconds > 0 &&
    remainingSeconds <= ceil(totalSeconds / 4)] *)
Definition spec_isInFinalQuarter (remainingSeconds totalSeconds : Z) : bool :=
  (0 <? remainingSeconds)
  && (remainingSeconds <=? Qceiling (inject_Z totalSeconds / 4)).

(** Events that leave the minutes field alone. *)
Definition keeps_field (ev : Z * action) : bool :=
  match snd ev with
  | ChangeMinutes _ => false
  | _ => true
  end.

(** The firings of interval [i] at the clock readings [ts]. *)
Definition fires (i : nat) (ts : list Z) : list (Z * action) :=
  map (fun t => (t, IntervalFires i)) ts.

(** The clock readings of [n] firings spaced 250 ms apart, the first one
    250 ms after [now]. *)
Definition regular (now : Z) (n : nat) : list Z :=
  map (fun k => now + 250 * Z.of_nat k) (seq 1 n).

(** While [running], exactly the interval held in [timerRef] is live, the
    end time is set and the display is positive; otherwise no interval is
    live and the end time is cleared. *)
Definition wf (st : State) : Prop :=
  if running st
  then (exists h, timerRef st = Some h /\ live st = {[ h ]})
       /\ (exists e, endRef st = Some e) /\ 0 < secondsLeft st
  else live st = ∅ /\ endRef st = None.

End Design.

(** ** The upload relay ([sever/server.js]) *)

Module Relay.

(** A whole number written out in decimal, as [Date.now() + '-'] writes the
    clock reading. *)
Definition toString (n : Z) : string :=
  DecimalString.NilZero.string_of_int (Z.to_int n).

(** [s.replace(/\s+/g, '-')]: every maximal run of white space becomes one
    hyphen. [in_run] tells whether the previous character was white space. *)
Fixpoint replace_spaces (in_run : bool) (s : string) : string :=
  match s with
  | EmptyString => EmptyString
  | String c s' =>
      if JS.is_space c then
        if in_run then replace_spaces true s'
        else String "-" (replace_spaces true s')
      else String c (replace_spaces false s')
  end.

(** [storage.filename] (lines 14-17). *)
Definition filename (now : Z) (originalname : string) : string :=
  toString now ++ "-" ++ replace_spaces false originalname.

(** A request to [POST /upload], as the handler sees it once
    [upload.single('image')] has run: [req.file] is set when the multipart
    body carries a file in the field [image], and its [filename] is the one
    [storage.filename] produced. *)
Record File : Type := { originalname : string }.

Inductive json : Type :=
  | Obj (key : string) (value : string).

Record Response : Type := { status : Z; body : json }.

(** The handler of [POST /upload] (lines 24-28); [res.json] without
    [res.status] answers 200. *)
Definition post_upload (now : Z) (image : option File) : Response :=
  match image with
  | None => {| status := 400; body := Obj "error" "No file" |}
  | Some f =>
      {| status := 200;
         body := Obj "filename" ("uploads/" ++ filename now (originalname f)) |}
  end.

(** The parts of a multipart body: a text field, or a file with the name of
    its field. *)
Inductive part : Type :=
  | TextPart (field value : string)
  | FilePart (field : string) (file : File).

(** [upload.single(field)], the rule of multer: a part without a file name
    is skipped, text fields go to [req.body], the first file of the field
    becomes [req.file], and any other file (another field, or a second
    file) is an error handed to Express.  [None] is that error. *)
Fixpoint single (field : string) (parts : list part) (accepted : option File)
  : option (option File) :=
  match parts with
  | [] => Some accepted
  | TextPart _ _ :: rest => single field rest accepted
  | FilePart name f :: rest =>
      if String.eqb (originalname f) "" then single field rest accepted
      else
        match accepted with
        | None =>
            if String.eqb name field then single field rest (Some f)
            else None
        | Some _ => None
        end
  end.

(** How a request ends: with the answer of the handler, or, the file keeps
    no error handler of its own, with Express answering the error by its
    status (500 for one that carries none). *)
Inductive outcome : Type :=
  | Handled (r : Response)
  | ExpressError (status : Z).

(** [app.post('/upload', upload.single('image'), handler)] (line 24). *)
Definition upload_route (now : Z) (parts : list part) : outcome :=
  match single "image" parts None with
  | Some file => Handled (post_upload now file)
  | None => ExpressError 500
  end.

Definition is_text (p : part) : bool :=
  match p with
  | TextPart _ _ => true
  | FilePart _ _ => false
  end.

(** The characters of a name other than white space and hyphens. *)
Definition letters (s : string) : list ascii :=
  List.filter (fun c => negb (JS.is_space c) && negb (Ascii.eqb c "-"))
    (list_ascii_of_string s).

Definition has_space (s : string) : bool :=
  existsb JS.is_space (list_ascii_of_string s).

Definition all_space (s : string) : bool :=
  forallb JS.is_space (list_ascii_of_string s).

Definition begins_with_space (s : string) : bool :=
  match s with
  | EmptyString => false
  | String c _ => JS.is_space c
  end.

(** Whether the body carries a part under the field name [field], text or
    file. *)
Definition field_present (field : string) (parts : list part) : bool :=
  existsb
    (fun p =>
       match p with
       | TextPart name _ | FilePart name _ => String.eqb name field
       end)
    parts.

End Relay.

(** ** The rest of the component: the clock face, teardown, the backdrop *)

Module Display.

(** [s.padStart(target, pad)] for a one-character [pad]. *)
Definition padStart (target : nat) (pad : ascii) (s : string) : string :=
  fold_right String s (repeat pad (target - String.length s)).

(** [formatTime] (lines 66-75).  On whole numbers [Math.floor(s / 3600)] is
    the quotient rounded down and [%] is the remainder with the sign of the
    dividend. *)
Definition formatTime (s : Z) : string :=
  let hh := padStart 2 "0" (Relay.toString (s / 3600)) in
  let mm := padStart 2 "0" (Relay.toString (Z.rem s 3600 / 60)) in
  let ss := padStart 2 "0" (Relay.toString (Z.rem s 60)) in
  hh ++ ":" ++ mm ++ ":" ++ ss.

(** The character of a decimal digit, and a number below 100 written with
    two of them. *)
Definition digit (d : Z) : ascii := ascii_of_N (Z.to_N (48 + d)).

Definition two_digits (n : Z) : string :=
  String (digit (n / 10)) (String (digit (n mod 10)) EmptyString).

(** Eight characters: two digits each for hours, minutes and seconds. *)
Definition clock_face (h m s : Z) : string :=
  String (digit (h / 10)) (String (digit (h mod 10)) (String ":"
    (String (digit (m / 10)) (String (digit (m mod 10)) (String ":"
      (two_digits s)))))).

End Display.

Module Lifecycle.
Import Timer.

(** Unmounting the component runs the cleanup of both effects: the one
    registered at mount (lines 34-37) and the one of the [running] effect
    (line 62). *)
Definition unmount (st : State) : State :=
  clearInterval (timerRef (effect_cleanup st)) (effect_cleanup st).

(** The clock readings of a history never go back, [t] being the reading
    before it. *)
Fixpoint clock_from (t : Z) (evs : list (Z * action)) : bool :=
  match evs with
  | [] => true
  | ev :: evs' => (t <=? fst ev) && clock_from (fst ev) evs'
  end.

Fixpoint last_clock (t : Z) (evs : list (Z * action)) : Z :=
  match evs with
  | [] => t
  | ev :: evs' => last_clock (fst ev) evs'
  end.

(** The end time is never further away than the display says, by more than
    the half second of rounding. *)
Definition anchored (t : Z) (st : State) : Prop :=
  0 <= secondsLeft st
  /\ forall e, running st = true -> endRef st = Some e ->
               e - t < secondsLeft st * 1000 + 500.

(** Events other than a press of Set. *)
Definition not_set (ev : Z * action) : bool :=
  match snd ev with
  | ClickSet => false
  | _ => true
  end.

End Lifecycle.

Module Backdrop.

(** The backdrop state of the component, and the browser's registry of
    object URLs ([URL.createObjectURL] / [URL.revokeObjectURL]). *)
Record State : Type := mkState {
  bgUrl : option string;          (* useState(null) *)
  uploadingToServer : bool;       (* useState(false) *)
  objectURLs : gset string;       (* object URLs created and not revoked *)
  nextObject : Z                  (* tells the next object URL apart *)
}.

Definition initial : State :=
  {| bgUrl := None; uploadingToServer := false; objectURLs := ∅;
     nextObject := 0 |}.

(** [s.startsWith('blob:')] *)
Definition is_blob (s : string) : bool := String.prefix "blob:" s.

(** [if (bgUrl && bgUrl.startsWith('blob:')) URL.revokeObjectURL(bgUrl)] *)
Definition revoke_if_blob (st : State) : State :=
  match bgUrl st with
  | Some u =>
      if negb (String.eqb u "") && is_blob u
      then mkState (bgUrl st) (uploadingToServer st)
             (objectURLs st ∖ {[ u ]}) (nextObject st)
      else st
  | None => st
  end.

(** The URL the browser hands out for the next object: a [blob:] URL that
    tells it apart from the others. *)
Definition fresh_url (st : State) : string :=
  "blob:" ++ Relay.toString (nextObject st).

(** [handleLocalUpload] (lines 87-93); the file itself plays no part. *)
Definition handleLocalUpload (file : option Relay.File) (st : State) : State :=
  match file with
  | None => st
  | Some _ =>
      let st := revoke_if_blob st in
      mkState (Some (fresh_url st)) (uploadingToServer st)
        ({[ fresh_url st ]} ∪ objectURLs st) (nextObject st + 1)
  end.

(** [clearBg] (lines 160-163). *)
Definition clearBg (st : State) : State :=
  let st := revoke_if_blob st in
  mkState None (uploadingToServer st) (objectURLs st) (nextObject st).

(** [handleServerUpload] up to its [await fetch(...)] (lines 95-104): the
    request it sends carries the file in the field [image]. *)
Definition handleServerUpload_sends (file : option Relay.File) (st : State)
  : State * option (option Relay.File) :=
  match file with
  | None => (st, None)
  | Some f =>
      (mkState (bgUrl st) true (objectURLs st) (nextObject st), Some (Some f))
  end.

(** [json.filename] in a template literal. *)
Definition filename_field (j : Relay.json) : string :=
  match j with
  | Relay.Obj key value =>
      if String.eqb key "filename" then value else "undefined"
  end.

(** [res.ok] *)
Definition ok (r : Relay.Response) : bool :=
  (200 <=? Relay.status r) && (Relay.status r <=? 299).

(** [handleServerUpload] from the answer on (lines 105-115); [None] is a
    [fetch] that failed.  The result carries the message of [alert]. *)
Definition handleServerUpload_receives
  (answer : option Relay.Response) (st : State) : State * option string :=
  match answer with
  | Some r =>
      if ok r then
        (mkState
           (Some ("http://localhost:4000/" ++ filename_field (Relay.body r)))
           false (objectURLs st) (nextObject st),
         None)
      else
        (mkState (bgUrl st) false (objectURLs st) (nextObject st),
         Some "Upload failed. Is the server running on port 4000?")
  | None =>
      (mkState (bgUrl st) false (objectURLs st) (nextObject st),
       Some "Upload failed. Is the server running on port 4000?")
  end.

(** What the operator does with the backdrop.  [onFileChange] and
    [onFileChangeServer] pass on the first selected file, if any. *)
Inductive action : Type :=
  | ChooseLocal (file : option Relay.File)
  | ChooseServer (file : option Relay.File)
  | ServerAnswers (answer : option Relay.Response)
  | ClickClearBg.

Definition step (a : action) (st : State) : State :=
  match a with
  | ChooseLocal file => handleLocalUpload file st
  | ChooseServer file => fst (handleServerUpload_sends file st)
  | ServerAnswers answer => fst (handleServerUpload_receives answer st)
  | ClickClearBg => clearBg st
  end.

Fixpoint run (acts : list action) (st : State) : State :=
  match acts with
  | [] => st
  | a :: acts' => run acts' (step a st)
  end.

(** Every object URL still registered is a [blob:] URL and is the current
    backdrop. *)
Definition tidy (st : State) : Prop :=
  forall u, u ∈ objectURLs st -> bgUrl st = Some u /\ is_blob u = true.

(** Histories in which no upload to the server succeeds. *)
Definition stays_local (a : action) : bool :=
  match a with
  | ServerAnswers (Some r) => negb (ok r)
  | _ => true
  end.

End Backdrop.

(** ** Sample evaluations *)

Example Number_5 : JS.Number "5" = JS.of_Z 5.
Proof. vm_compute. reflexivity. Qed.
Example Number_empty : JS.Number "" = JS.of_Z 0.
Proof. vm_compute. reflexivity. Qed.
Example Number_neg5 : JS.Number "-5" = JS.of_Z (-5).
Proof. vm_compute. reflexivity. Qed.
Example Number_frac :
  JS.Number "0.01" = S754_finite false 5764607523034235 (-59).
Proof. vm_compute. reflexivity. Qed.
Example Number_exp : JS.Number " 1.5e2 " = JS.of_Z 150.
Proof. vm_compute. reflexivity. Qed.
Example Number_junk : JS.Number "abc" = JS.JNaN.
Proof. vm_compute. reflexivity. Qed.
Example Number_hex : JS.Number "0x1F" = JS.of_Z 31.
Proof. vm_compute. reflexivity. Qed.
Example Number_beyond_range :
  JS.Number "1e-400" = JS.of_Z 0 /\ JS.Number "1e400" = S754_infinity false.
Proof. vm_compute. split; reflexivity. Qed.
Example product_is_rounded :
  JS.Math_round (JS.mul (JS.Number "1.025") (JS.of_Z 60)) = JS.WInt 61
  /\ JS.ceil (JS.div (JS.mul (JS.Number "16.6") (JS.of_Z 60)) (JS.of_Z 4))
     = JS.WInt 250.
Proof. vm_compute. split; reflexivity. Qed.
Example round_half : JS.round (5 # 2) = 3 /\ JS.round (- 5 # 2) = -2.
Proof. split; reflexivity. Qed.
Example toString_small : Relay.toString 0 = "0" /\ Relay.toString 1700000000123 = "1700000000123".
Proof. split; vm_compute; reflexivity. Qed.
Example filename_ex : Relay.filename 1700000000123 "my  holiday photo.png" = "1700000000123-my-holiday-photo.png".
Proof. vm_compute. reflexivity. Qed.

(** ** Arithmetic of [Math.round] and [Math.ceil] *)

Section Rounding.

Lemma round_thousandths (ms : Z) :
  JS.round (inject_Z ms / 1000) = (ms + 500) / 1000.
Proof.
  unfold JS.round.
  assert (E : (inject_Z ms / 1000 + (1 # 2) == (ms + 500) # 1000)%Q).
  { unfold Qeq, Qdiv, Qmult, Qplus, Qinv, inject_Z. simpl. lia. }
  rewrite (Qfloor_comp _ _ E). reflexivity.
Qed.

Lemma round_seconds_div (ms : Z) :
  Timer.round_seconds ms = (ms + 500) / 1000.
Proof. apply round_thousandths. Qed.

Lemma round_seconds_le0 (ms : Z) :
  Timer.round_seconds ms <= 0 <-> ms < 500.
Proof.
  rewrite round_seconds_div. split; intros H.
  - destruct (Z_lt_ge_dec ms 500) as [|G]; [assumption|].
    assert (1 <= (ms + 500) / 1000) by (apply Z.div_le_lower_bound; lia). lia.
  - assert ((ms + 500) / 1000 < 1) by (apply Z.div_lt_upper_bound; lia). lia.
Qed.

Lemma round_whole (k : Z) (q : Q) :
  (q == inject_Z k)%Q -> JS.round q = k.
Proof.
  intros E. unfold JS.round.
  assert (E' : (q + (1 # 2) == (2 * k + 1) # 2)%Q).
  { rewrite E. unfold Qeq, Qplus, inject_Z. simpl. lia. }
  rewrite (Qfloor_comp _ _ E'). simpl.
  symmetry. apply (Z.div_unique _ _ _ 1); lia.
Qed.

Lemma ceiling_quarter (k : Z) (q : Q) :
  (q == inject_Z k / 4)%Q -> Qceiling q = - ((- k) / 4).
Proof.
  intros E. rewrite (Qceiling_comp _ _ E). unfold Qceiling.
  assert (E' : (- (inject_Z k / 4) == (- k) # 4)%Q).
  { unfold Qeq, Qdiv, Qmult, Qopp, Qinv, inject_Z. simpl. lia. }
  rewrite (Qfloor_comp _ _ E'). reflexivity.
Qed.

Lemma round_nonneg q : (0 <= q)%Q -> 0 <= JS.round q.
Proof.
  intros P. unfold JS.round.
  change 0 with (Qfloor 0). apply Qfloor_resp_le.
  apply Qle_trans with q; [exact P|].
  rewrite <- (Qplus_0_r q) at 1. apply Qplus_le_r. discriminate.
Qed.

End Rounding.

(** ** The invariant of the component *)

Section Invariant.
Import Timer Design.

Lemma wf_initial : wf initial.
Proof. split; reflexivity. Qed.

Lemma wf_running st :
  wf st -> running st = true ->
  exists h e, timerRef st = Some h /\ live st = {[ h ]}
              /\ endRef st = Some e /\ 0 < secondsLeft st.
Proof.
  unfold wf. intros W R. rewrite R in W.
  destruct W as [[h [? ?]] [[e ?] ?]]. exists h, e. auto.
Qed.

Lemma wf_stopped st :
  wf st -> running st = false -> live st = ∅ /\ endRef st = None.
Proof. unfold wf. intros W R. rewrite R in W. exact W. Qed.

Lemma commit_same now st st' :
  running st' = running st -> commit now st st' = st'.
Proof.
  intros E. unfold commit. rewrite E.
  destruct (running st); reflexivity.
Qed.

(** A firing of a cleared interval changes nothing. *)
Lemma dead_interval_silent now i st :
  i ∉ live st -> step (now, IntervalFires i) st = st.
Proof.
  intros H. unfold step, handle. simpl.
  destruct (decide (i ∈ live st)); [contradiction|].
  apply commit_same. reflexivity.
Qed.

Lemma fires_stopped i ts st :
  live st = ∅ -> run (fires i ts) st = st.
Proof.
  intros H. induction ts as [|t ts IH]; simpl; [reflexivity|].
  rewrite dead_interval_silent; [exact IH|]. rewrite H. set_solver.
Qed.

(** ** Facts about doubles *)

Lemma round_aux_shape s m e l :
  binary_round_aux JS.prec JS.emax s m e l = S754_zero s
  \/ binary_round_aux JS.prec JS.emax s m e l = S754_infinity s
  \/ binary_round_aux JS.prec JS.emax s m e l = S754_nan
  \/ exists m' e',
       binary_round_aux JS.prec JS.emax s m e l = S754_finite s m' e'.
Proof.
  unfold binary_round_aux.
  destruct (shr_fexp JS.prec JS.emax m e l) as [r1 e1].
  destruct (shr_fexp JS.prec JS.emax _ e1 loc_Exact) as [r2 e2].
  destruct (shr_m r2) as [|p|p]; auto.
  destruct (e2 <=? JS.emax - JS.prec); eauto 6.
Qed.

Lemma div_eucl_exact a b q :
  0 < b -> a = q * b -> Z.div_eucl a b = (q, 0).
Proof.
  intros P ->.
  assert (E : Z.div_eucl (q * b) b = ((q * b) / b, (q * b) mod b)).
  { unfold Z.div, Z.modulo. destruct (Z.div_eucl (q * b) b). reflexivity. }
  rewrite E, Z.div_mul, Z.mod_mul by lia. reflexivity.
Qed.

Lemma digits2_pos_iter p x :
  digits2_pos (Pos.iter xO p x) = (digits2_pos p + x)%positive.
Proof.
  induction x as [|x IH] using Pos.peano_ind.
  - cbn. apply eq_sym, Pos.add_1_r.
  - rewrite Pos.iter_succ. cbn [digits2_pos]. rewrite IH.
    apply eq_sym, Pos.add_succ_r.
Qed.

Lemma Zpos_iter p x : Zpos (Pos.iter xO p x) = Zpos p * 2 ^ Zpos x.
Proof.
  induction x as [|x IH] using Pos.peano_ind.
  - cbn. lia.
  - rewrite Pos.iter_succ, (Pos2Z.inj_xO (Pos.iter xO p x)), IH,
      Pos2Z.inj_succ.
    rewrite Z.pow_succ_r by lia. lia.
Qed.

Lemma digits2_bounds p :
  2 ^ (Zpos (digits2_pos p) - 1) <= Zpos p < 2 ^ Zpos (digits2_pos p).
Proof.
  induction p as [p IH|p IH|]; cbn [digits2_pos].
  - rewrite Pos2Z.inj_succ, (Pos2Z.inj_xI p).
    replace (Z.succ (Zpos (digits2_pos p)) - 1)
      with (Z.succ (Zpos (digits2_pos p) - 1)) by lia.
    rewrite !Z.pow_succ_r by lia. lia.
  - rewrite Pos2Z.inj_succ, (Pos2Z.inj_xO p).
    replace (Z.succ (Zpos (digits2_pos p)) - 1)
      with (Z.succ (Zpos (digits2_pos p) - 1)) by lia.
    rewrite !Z.pow_succ_r by lia. lia.
  - cbn. lia.
Qed.

(** A mantissa of 53 bits with an exponent in range is left as it is. *)
Lemma round_aux_exact s m e :
  Zpos (digits2_pos m) = 53 -> -1074 <= e <= 971 ->
  binary_round_aux JS.prec JS.emax s (Zpos m) e loc_Exact
  = S754_finite s m e.
Proof.
  intros D B.
  assert (F : fexp JS.prec JS.emax (Zdigits2 (Zpos m) + e) - e = 0).
  { cbn [Zdigits2]. rewrite D. unfold fexp, emin, JS.prec, JS.emax. lia. }
  unfold binary_round_aux, shr_fexp. rewrite F.
  cbn [shr shr_record_of_loc shr_m loc_of_shr_record round_nearest_even].
  rewrite F. cbn [shr shr_record_of_loc shr_m].
  unfold JS.emax, JS.prec.
  destruct (Z.leb_spec e (1024 - 53)); [reflexivity|lia].
Qed.

(** A whole number below 2^53 is a double: its mantissa brought to 53
    bits. *)
Lemma of_Z_small k :
  0 < k < 2 ^ 53 ->
  exists m e,
    JS.of_Z k = S754_finite false m e
    /\ Zpos (digits2_pos m) = 53 /\ -52 <= e <= 0
    /\ Zpos m = k * 2 ^ (- e).
Proof.
  intros [P U]. destruct k as [|p|p]; try lia.
  pose proof (digits2_bounds p) as [L _].
  assert (D : 1 <= Zpos (digits2_pos p) <= 53).
  { split; [lia|].
    destruct (Z_le_gt_dec (Zpos (digits2_pos p)) 53) as [|G]; [assumption|].
    assert (2 ^ 53 <= 2 ^ (Zpos (digits2_pos p) - 1))
      by (apply Z.pow_le_mono_r; lia).
    lia. }
  unfold JS.of_Z, binary_normalize, binary_round, shl_align.
  assert (F : fexp JS.prec JS.emax (Zpos (digits2_pos p) + 0)
              = Zpos (digits2_pos p) - 53).
  { unfold fexp, emin, JS.prec, JS.emax. lia. }
  rewrite F.
  destruct (Zpos (digits2_pos p) - 53 - 0) as [|x|x] eqn:X; try lia.
  - exists p, 0. split; [|split; [|split]]; try lia.
    apply round_aux_exact; lia.
  - exists (Pos.iter xO p x), (Zpos (digits2_pos p) - 53).
    assert (D' : Zpos (digits2_pos (Pos.iter xO p x)) = 53).
    { rewrite digits2_pos_iter, Pos2Z.inj_add. lia. }
    split; [|split; [|split]]; try lia.
    + apply round_aux_exact; [exact D'|lia].
    + rewrite Zpos_iter. f_equal. f_equal. lia.
Qed.

Lemma magnitude_whole m e k :
  e <= 0 -> Zpos m = k * 2 ^ (- e) -> (JS.magnitude m e == inject_Z k)%Q.
Proof.
  intros B E. unfold JS.magnitude.
  destruct (Z.leb_spec 0 e) as [Z0|N].
  - assert (e = 0) by lia. subst e. cbn in E. rewrite E.
    change (2 ^ 0) with 1. rewrite !Z.mul_1_r. reflexivity.
  - assert (P2 : 0 < 2 ^ (- e)) by (apply Z.pow_pos_nonneg; lia).
    unfold Qeq, inject_Z. cbn [Qnum Qden].
    rewrite Z2Pos.id by exact P2. lia.
Qed.

Lemma round_of_Z k : 0 < k < 2 ^ 53 -> JS.Math_round (JS.of_Z k) = JS.WInt k.
Proof.
  intros B. destruct (of_Z_small k B) as (m & e & -> & _ & Be & E).
  cbn [JS.Math_round JS.value]. f_equal.
  apply round_whole. apply magnitude_whole; [lia|exact E].
Qed.

(** A double divided by itself is 1. *)
Lemma div_self m e :
  JS.div (S754_finite false m e) (S754_finite false m e) = JS.of_Z 1.
Proof.
  unfold JS.div, SFdiv, SFdiv_core_binary. cbn [Zdigits2 xorb].
  replace (Zpos (digits2_pos m) + e - (Zpos (digits2_pos m) + e)) with 0
    by lia.
  replace (e - e) with 0 by lia.
  change (Z.min (fexp JS.prec JS.emax 0) 0) with (-53).
  change (0 - -53) with 53.
  rewrite Z.shiftl_mul_pow2 by lia.
  rewrite (div_eucl_exact (Zpos m * 2 ^ 53) (Zpos m) (2 ^ 53))
    by lia.
  assert (L : new_location (Zpos m) 0 = loc_Exact).
  { unfold new_location, new_location_even, new_location_odd.
    destruct (Z.even (Zpos m)); reflexivity. }
  rewrite L. vm_compute. reflexivity.
Qed.

(** Dividing a double of 53 bits by 4 lowers its exponent by 2. *)
Lemma div_four m e :
  Zpos (digits2_pos m) = 53 -> -1000 <= e <= 900 ->
  JS.div (S754_finite false m e) (JS.of_Z 4) = S754_finite false m (e - 2).
Proof.
  intros D B.
  change (JS.of_Z 4) with (S754_finite false 4503599627370496 (-50)).
  unfold JS.div, SFdiv, SFdiv_core_binary. cbn [Zdigits2 xorb]. rewrite D.
  change (Zpos (digits2_pos 4503599627370496)) with 53.
  assert (E' : Z.min (fexp JS.prec JS.emax (53 + e - (53 + -50))) (e - -50)
               = e - 3).
  { unfold fexp, emin, JS.prec, JS.emax. lia. }
  rewrite E'. replace (e - -50 - (e - 3)) with 53 by lia.
  rewrite Z.shiftl_mul_pow2 by lia.
  rewrite (div_eucl_exact (Zpos m * 2 ^ 53) 4503599627370496 (Zpos m~0))
    by lia.
  assert (L : new_location 4503599627370496 0 = loc_Exact) by reflexivity.
  rewrite L.
  unfold binary_round_aux, shr_fexp.
  assert (F1 : fexp JS.prec JS.emax (Zdigits2 (Zpos m~0) + (e - 3)) - (e - 3)
               = 1).
  { cbn [Zdigits2 digits2_pos]. rewrite Pos2Z.inj_succ, D.
    unfold fexp, emin, JS.prec, JS.emax. lia. }
  rewrite F1.
  cbn [shr shr_record_of_loc SpecFloat.iter_pos shr_1 orb shr_m loc_of_shr_record
       round_nearest_even].
  assert (F2 : fexp JS.prec JS.emax (Zdigits2 (Zpos m) + (e - 3 + 1))
               - (e - 3 + 1) = 0).
  { cbn [Zdigits2]. rewrite D. unfold fexp, emin, JS.prec, JS.emax. lia. }
  rewrite F2. cbn [shr shr_record_of_loc shr_m].
  unfold JS.emax, JS.prec.
  destruct (Z.leb_spec (e - 3 + 1) (1024 - 53)); [|lia].
  f_equal. lia.
Qed.

Lemma ceil_quarter_of_Z k :
  0 < k < 2 ^ 53 ->
  JS.ceil (JS.div (JS.of_Z k) (JS.of_Z 4))
  = JS.WInt (Qceiling (inject_Z k / 4)).
Proof.
  intros B. destruct (of_Z_small k B) as (m & e & -> & D & Be & E).
  rewrite div_four by (try assumption; lia).
  cbn [JS.ceil JS.value]. f_equal. apply Qceiling_comp.
  unfold JS.magnitude. destruct (Z.leb_spec 0 (e - 2)); [lia|].
  assert (P2 : 0 < 2 ^ (- (e - 2))) by (apply Z.pow_pos_nonneg; lia).
  assert (S : 2 ^ (- (e - 2)) = 4 * 2 ^ (- e)).
  { replace (- (e - 2)) with (2 + - e) by lia.
    rewrite Z.pow_add_r by lia. reflexivity. }
  unfold Qeq, Qdiv, Qmult, Qinv, inject_Z. cbn [Qnum Qden].
  rewrite Z2Pos.id by exact P2. cbn. rewrite S, E. lia.
Qed.

(** A product with 60 that is a positive double comes from a positive
    finite factor. *)
Lemma positive_factor n m e :
  JS.mul n (JS.of_Z 60) = S754_finite false m e ->
  JS.isFinite n = true /\ JS.le n (JS.of_Z 0) = false.
Proof.
  change (JS.of_Z 60) with (S754_finite false 8444249301319680 (-47)).
  change (JS.of_Z 0) with (S754_zero false).
  destruct n as [s|s| |s m0 e0]; cbn [JS.mul SFmul]; try discriminate.
  destruct s; [|intros _; split; reflexivity].
  cbn [xorb]. intros H.
  destruct (round_aux_shape true (Zpos (m0 * 8444249301319680))
              (e0 + -47) loc_Exact)
    as [E|[E|[E|(m' & e' & E)]]]; rewrite E in H; discriminate.
Qed.

(** What Set stores is never negative. *)
Lemma round_product_nonneg n z :
  JS.isFinite n = true -> JS.le n (JS.of_Z 0) = false ->
  JS.Math_round (JS.mul n (JS.of_Z 60)) = JS.WInt z -> 0 <= z.
Proof.
  change (JS.of_Z 60) with (S754_finite false 8444249301319680 (-47)).
  change (JS.of_Z 0) with (S754_zero false).
  destruct n as [s|s| |s m0 e0]; cbn [JS.isFinite]; try discriminate.
  destruct s; [intros _ H; cbv in H; discriminate|]. intros _ _.
  cbn [JS.mul SFmul xorb].
  destruct (round_aux_shape false (Zpos (m0 * 8444249301319680))
              (e0 + -47) loc_Exact)
    as [E|[E|[E|(m' & e' & E)]]]; rewrite E;
    cbn [JS.Math_round JS.value]; try discriminate.
  - intros [= <-]. reflexivity.
  - intros [= <-]. apply round_nonneg.
    unfold JS.magnitude. destruct (0 <=? e').
    + unfold Qle, inject_Z. cbn.
      assert (0 <= 2 ^ e') by (apply Z.pow_nonneg; lia). nia.
    + unfold Qle. cbn. lia.
Qed.

(** *** One step at a time *)

Ltac open_state st :=
  destruct st as [sl rn er tr sc mi lv nx];
  cbn [secondsLeft running endRef timerRef showControls minutesInput live
       nextTimer] in *.

(** Expose the handler of the event at hand. *)
Ltac handler :=
  unfold step; cbn [fst snd handle];
  unfold startTimer, resumeTimer, pauseTimer, resetTimer, tick, endRef_number;
  cbn [secondsLeft running endRef timerRef showControls minutesInput live
       nextTimer].

(** Run the handler's updates, the render and its effect. *)
Ltac render :=
  cbv beta iota zeta delta
    [commit effect_running effect_cleanup endRef_falsy
     setInterval_into_timerRef clearInterval set_endRef set_running
     set_secondsLeft set_showControls set_minutesInput fst snd Bool.eqb
     secondsLeft running endRef timerRef showControls minutesInput live
     nextTimer].

Lemma start_when_stopped now st :
  wf st -> running st = false -> 0 < secondsLeft st ->
  step (now, ClickStart) st =
  mkState (secondsLeft st) true (Some (now + secondsLeft st * 1000))
    (Some (nextTimer st)) false (minutesInput st) {[ nextTimer st ]}
    (S (nextTimer st)).
Proof.
  intros W R P. destruct (wf_stopped _ W R) as [L E].
  open_state st. subst. handler.
  destruct (Z.leb_spec sl 0); [lia|].
  destruct (now + sl * 1000 =? 0) eqn:Z0, tr; render; rewrite ?Z0;
    f_equal; set_solver.
Qed.

Lemma start_when_running now st :
  wf st -> running st = true ->
  step (now, ClickStart) st =
  mkState (secondsLeft st) true (Some (now + secondsLeft st * 1000))
    (timerRef st) false (minutesInput st) (live st) (nextTimer st).
Proof.
  intros W R. destruct (wf_running _ W R) as (h & e & T & L & E & P).
  open_state st. subst. handler.
  destruct (Z.leb_spec sl 0); [lia|]. render. reflexivity.
Qed.

Lemma start_at_zero now st :
  secondsLeft st <= 0 -> step (now, ClickStart) st = st.
Proof.
  intros P. unfold step. cbn [fst snd handle]. unfold startTimer.
  destruct (Z.leb_spec (secondsLeft st) 0); [|lia].
  apply commit_same. reflexivity.
Qed.

Lemma resume_when_stopped now st :
  wf st -> running st = false -> 0 < secondsLeft st ->
  step (now, ClickResume) st =
  mkState (secondsLeft st) true (Some (now + secondsLeft st * 1000))
    (Some (nextTimer st)) (showControls st) (minutesInput st)
    {[ nextTimer st ]} (S (nextTimer st)).
Proof.
  intros W R P. destruct (wf_stopped _ W R) as [L E].
  open_state st. subst. handler.
  destruct (Z.leb_spec sl 0); [lia|].
  destruct (now + sl * 1000 =? 0) eqn:Z0, tr; render; rewrite ?Z0;
    f_equal; set_solver.
Qed.

Lemma resume_when_running now st :
  wf st -> running st = true ->
  step (now, ClickResume) st =
  mkState (secondsLeft st) true (Some (now + secondsLeft st * 1000))
    (timerRef st) (showControls st) (minutesInput st) (live st)
    (nextTimer st).
Proof.
  intros W R. destruct (wf_running _ W R) as (h & e & T & L & E & P).
  open_state st. subst. handler.
  destruct (Z.leb_spec sl 0); [lia|]. render. reflexivity.
Qed.

Lemma resume_at_zero now st :
  secondsLeft st <= 0 -> step (now, ClickResume) st = st.
Proof.
  intros P. unfold step. cbn [fst snd handle]. unfold resumeTimer.
  destruct (Z.leb_spec (secondsLeft st) 0); [|lia].
  apply commit_same. reflexivity.
Qed.

Lemma pause_step now st :
  wf st ->
  step (now, ClickPause) st =
  mkState (secondsLeft st) false None (timerRef st) (showControls st)
    (minutesInput st) ∅ (nextTimer st).
Proof.
  intros W. destruct (running st) eqn:R.
  - destruct (wf_running _ W R) as (h & e & T & L & E & P).
    open_state st. subst. handler. render. f_equal. set_solver.
  - destruct (wf_stopped _ W R) as [L E].
    open_state st. subst. handler.
    destruct tr; render; f_equal; set_solver.
Qed.

Lemma reset_step now st :
  wf st ->
  step (now, ClickReset) st =
  mkState 0 false None (timerRef st) (showControls st)
    (minutesInput st) ∅ (nextTimer st).
Proof.
  intros W. destruct (running st) eqn:R.
  - destruct (wf_running _ W R) as (h & e & T & L & E & P).
    open_state st. subst. handler. render. f_equal. set_solver.
  - destruct (wf_stopped _ W R) as [L E].
    open_state st. subst. handler.
    destruct tr; render; f_equal; set_solver.
Qed.

(** Set either refuses the minutes, or stores a whole number of seconds
    (what it had, when the product overflows). *)
Lemma applyMinutes_cases st :
  (applyMinutes st = (st, Some "Enter minutes > 0")
   /\ (JS.isFinite (JS.Number (minutesInput st)) = false
       \/ JS.le (JS.Number (minutesInput st)) (JS.of_Z 0) = true))
  \/ (JS.isFinite (JS.Number (minutesInput st)) = true
      /\ JS.le (JS.Number (minutesInput st)) (JS.of_Z 0) = false
      /\ exists z,
           (JS.Math_round (JS.mul (JS.Number (minutesInput st)) (JS.of_Z 60))
            = JS.WInt z
            \/ (z = secondsLeft st
                /\ forall z',
                     JS.Math_round
                       (JS.mul (JS.Number (minutesInput st)) (JS.of_Z 60))
                     <> JS.WInt z'))
           /\ applyMinutes st =
              (set_endRef None
                 (set_running false (set_secondsLeft z st)), None)).
Proof.
  unfold applyMinutes.
  destruct (JS.isFinite (JS.Number (minutesInput st))) eqn:F; cbn [negb orb];
    [|left; auto].
  destruct (JS.le (JS.Number (minutesInput st)) (JS.of_Z 0)) eqn:L;
    [left; auto|].
  right. split; [reflexivity|]. split; [reflexivity|].
  destruct (JS.Math_round _) as [|neg|z] eqn:M.
  - exists (secondsLeft st). split; [right; split; [reflexivity|discriminate]|].
    destruct st; reflexivity.
  - exists (secondsLeft st). split; [right; split; [reflexivity|discriminate]|].
    destruct st; reflexivity.
  - exists z. split; [left; reflexivity|reflexivity].
Qed.

Lemma set_rejected now st :
  snd (applyMinutes st) <> None -> step (now, ClickSet) st = st.
Proof.
  intros H. unfold step. cbn [fst snd handle].
  assert (E : fst (applyMinutes st) = st).
  { destruct (applyMinutes_cases st) as [[-> _]|(_ & _ & z & _ & A)];
      [reflexivity|].
    rewrite A in H. cbn [snd] in H. congruence. }
  rewrite E. apply commit_same. reflexivity.
Qed.

Lemma set_step now st z :
  wf st ->
  applyMinutes st =
    (set_endRef None (set_running false (set_secondsLeft z st)), None) ->
  step (now, ClickSet) st =
  mkState z false None (timerRef st) (showControls st)
    (minutesInput st) ∅ (nextTimer st).
Proof.
  intros W A.
  unfold step. cbn [fst snd handle]. rewrite A. cbn [fst].
  destruct (running st) eqn:R.
  - destruct (wf_running _ W R) as (h & e & T & L & E & P').
    open_state st. subst. render. f_equal. set_solver.
  - destruct (wf_stopped _ W R) as [L E].
    open_state st. subst. render. reflexivity.
Qed.

Lemma set_cases now st :
  wf st ->
  step (now, ClickSet) st = st
  \/ exists z, (0 <= z \/ z = secondsLeft st)
       /\ step (now, ClickSet) st =
          mkState z false None (timerRef st) (showControls st)
            (minutesInput st) ∅ (nextTimer st).
Proof.
  intros W.
  destruct (applyMinutes_cases st) as [[A _]|(F & L & z & M & A)].
  - left. apply set_rejected. rewrite A. discriminate.
  - right. exists z. split; [|apply set_step; assumption].
    destruct M as [M|[-> _]]; [|right; reflexivity].
    left. exact (round_product_nonneg _ z F L M).
Qed.

(** A firing of the live interval publishes the rounded distance to the end
    time, and stops the countdown when that is zero. *)
Lemma tick_step now st h e :
  wf st -> running st = true -> timerRef st = Some h -> endRef st = Some e ->
  step (now, IntervalFires h) st =
  if e - now <? 500
  then mkState 0 false None (timerRef st) (showControls st)
         (minutesInput st) ∅ (nextTimer st)
  else mkState (remaining e now) true (Some e) (timerRef st)
         (showControls st) (minutesInput st) (live st) (nextTimer st).
Proof.
  intros W R T E. destruct (wf_running _ W R) as (h' & e' & T' & L & E' & P).
  assert (h' = h) by congruence. assert (e' = e) by congruence. subst h' e'.
  open_state st. subst. handler.
  destruct (decide (h ∈ ({[h]} : gset nat))) as [_|N]; [|set_solver].
  unfold remaining. fold (round_seconds (e - now)).
  pose proof (round_seconds_le0 (e - now)) as Z0.
  generalize dependent (round_seconds (e - now)). intros r Z0.
  destruct (Z.ltb_spec (e - now) 500) as [Lt|Ge].
  - assert (M : Z.max 0 r = 0) by lia.
    rewrite M. cbn [set_secondsLeft secondsLeft Z.leb Z.compare].
    render. f_equal. set_solver.
  - assert (M : 0 < Z.max 0 r) by lia.
    generalize dependent (Z.max 0 r). intros m M.
    unfold set_secondsLeft at 1. cbn [secondsLeft].
    destruct (Z.leb_spec m 0); [lia|]. render. reflexivity.
Qed.

Lemma step_wf ev st : wf st -> wf (step ev st).
Proof.
  intros W. destruct ev as [now a]. destruct a.
  - (* typing in the minutes field *)
    unfold step. cbn [fst snd handle]. rewrite commit_same by reflexivity.
    open_state st. exact W.
  - (* Set *)
    destruct (set_cases now st W) as [-> | (z & _ & ->)];
      [exact W|split; reflexivity].
  - (* Start *)
    destruct (running st) eqn:R.
    + rewrite start_when_running by assumption.
      destruct (wf_running _ W R) as (h & e & T & L & E & P).
      unfold wf. cbn. eauto 8.
    + destruct (Z_lt_le_dec 0 (secondsLeft st)) as [P|P].
      * rewrite start_when_stopped by assumption. unfold wf. cbn. eauto 8.
      * rewrite start_at_zero by assumption. exact W.
  - (* Pause *)
    rewrite pause_step by assumption. split; reflexivity.
  - (* Resume *)
    destruct (Z_lt_le_dec 0 (secondsLeft st)) as [P|P].
    + destruct (running st) eqn:R.
      * destruct (wf_running _ W R) as (h & e & T & L & E & P').
        rewrite resume_when_running by assumption. unfold wf. cbn. eauto 8.
      * rewrite resume_when_stopped by assumption. unfold wf. cbn. eauto 8.
    + rewrite resume_at_zero by assumption. exact W.
  - (* Reset *)
    rewrite reset_step by assumption. split; reflexivity.
  - (* the gear *)
    unfold step. cbn [fst snd handle]. rewrite commit_same by reflexivity.
    open_state st. exact W.
  - (* an interval fires *)
    destruct (decide (i ∈ live st)) as [I|I].
    + destruct (running st) eqn:R.
      * destruct (wf_running _ W R) as (h & e & T & L & E & P).
        assert (i = h) by (rewrite L in I; set_solver). subst i.
        rewrite (tick_step now st h e) by assumption.
        destruct (Z.ltb_spec (e - now) 500) as [Lt|Ge].
        -- split; reflexivity.
        -- unfold wf. cbn. split; [eauto|]. split; [eauto|].
           unfold remaining. rewrite round_thousandths.
           assert (1 <= (e - now + 500) / 1000)
             by (apply Z.div_le_lower_bound; lia). lia.
      * destruct (wf_stopped _ W R) as [L E]. rewrite L in I. set_solver.
    + rewrite dead_interval_silent by assumption. exact W.
Qed.

Lemma run_wf evs st : wf st -> wf (run evs st).
Proof.
  revert st. induction evs as [|ev evs IH]; intros st W; simpl; [exact W|].
  apply IH, step_wf, W.
Qed.

Lemma reachable_wf evs : wf (run evs initial).
Proof. apply run_wf, wf_initial. Qed.

Lemma run_app evs1 evs2 st : run (evs1 ++ evs2) st = run evs2 (run evs1 st).
Proof.
  revert st. induction evs1 as [|ev evs1 IH]; intros st; simpl; [reflexivity|].
  apply IH.
Qed.

(** *** Firings of the live interval *)

Lemma fires_before_end h e ts st :
  wf st -> running st = true -> timerRef st = Some h -> endRef st = Some e ->
  (forall t, In t ts -> 500 <= e - t) ->
  let st' := run (fires h ts) st in
  wf st' /\ running st' = true /\ timerRef st' = Some h
  /\ endRef st' = Some e /\ live st' = live st.
Proof.
  revert st. induction ts as [|t ts IH]; intros st W R T E A; simpl.
  - auto.
  - pose proof (step_wf (t, IntervalFires h) st W) as W'.
    rewrite (tick_step t st h e) in * by assumption.
    destruct (Z.ltb_spec (e - t) 500) as [Lt|Ge].
    + specialize (A t (or_introl eq_refl)). lia.
    + specialize (IH _ W' eq_refl T eq_refl (fun u I => A u (or_intror I))).
      exact IH.
Qed.

Lemma fires_past_end h e ts st :
  wf st -> running st = true -> timerRef st = Some h -> endRef st = Some e ->
  (exists t, In t ts /\ e - t < 500) ->
  run (fires h ts) st =
  mkState 0 false None (timerRef st) (showControls st) (minutesInput st) ∅
    (nextTimer st).
Proof.
  revert st. induction ts as [|t ts IH]; intros st W R T E [u [I Lt]].
  - destruct I.
  - simpl. pose proof (step_wf (t, IntervalFires h) st W) as W'.
    rewrite (tick_step t st h e) in * by assumption.
    destruct (Z.ltb_spec (e - t) 500) as [Lt'|Ge].
    + apply fires_stopped. reflexivity.
    + destruct I as [->|I]; [lia|].
      rewrite (IH _ W' eq_refl T eq_refl); [reflexivity|eauto].
Qed.

Lemma classic_all_before e ts :
  (forall t, In t ts -> 500 <= e - t) \/ (exists t, In t ts /\ e - t < 500).
Proof.
  induction ts as [|t ts [A|[u [I Lt]]]].
  - left. intros t [].
  - destruct (Z_lt_le_dec (e - t) 500) as [Lt|Ge].
    + right. exists t. split; [left; reflexivity|assumption].
    + left. intros u [<-|I]; [assumption|apply A, I].
  - right. exists u. split; [right; assumption|assumption].
Qed.

Lemma regular_reaches now R :
  0 < R -> In (now + R * 1000) (regular now (Z.to_nat (R * 1000 / 250))).
Proof.
  intros P. unfold regular. apply in_map_iff.
  assert (D : R * 1000 / 250 = 4 * R)
    by (symmetry; apply (Z.div_unique _ _ _ 0); lia).
  exists (Z.to_nat (4 * R)). split; [lia|].
  apply in_seq. rewrite D. lia.
Qed.

(** C1. After Start with [secondsLeft = R > 0] at clock reading [now], the
    end time is [now + R * 1000]; every firing of the interval at a reading
    [t] publishes [max(0, round((end - t) / 1000))], whatever the earlier
    firings were; and as soon as one firing happens at or after the end time
    the countdown shows 0 and has stopped with the end time cleared (the
    Expired phase), for any spacing of the firings, in particular for
    [R * 1000 / 250] firings 250 ms apart. *)
Theorem drift_free_expiry (evs : list (Z * action)) (now : Z) :
  0 < secondsLeft (run evs initial) ->
  exists h,
    let R := secondsLeft (run evs initial) in
    let st1 := step (now, ClickStart) (run evs initial) in
    running st1 = true /\ secondsLeft st1 = R
    /\ endRef st1 = Some (now + R * 1000)
    /\ timerRef st1 = Some h /\ live st1 = {[ h ]}
    /\ (forall ts t,
          running (run (fires h ts) st1) = true ->
          secondsLeft (step (t, IntervalFires h) (run (fires h ts) st1))
          = remaining (now + R * 1000) t)
    /\ (forall ts,
          (exists t, In t ts /\ now + R * 1000 <= t) ->
          let st2 := run (fires h ts) st1 in
          secondsLeft st2 = 0 /\ in_phase Expired st2 /\ live st2 = ∅
          /\ timeUpShown st2 = true)
    /\ in_phase Expired
         (run (fires h (regular now (Z.to_nat (R * 1000 / 250)))) st1).
Proof.
  intros P. set (st := run evs initial) in *.
  assert (W : wf st) by apply reachable_wf.
  assert (S1 : exists h,
    step (now, ClickStart) st =
    mkState (secondsLeft st) true (Some (now + secondsLeft st * 1000))
      (Some h) false (minutesInput st) {[ h ]}
      (nextTimer (step (now, ClickStart) st))).
  { destruct (running st) eqn:Rn.
    - destruct (wf_running _ W Rn) as (h & e & T & L & E & _).
      exists h. rewrite start_when_running by assumption.
      rewrite T, L. reflexivity.
    - exists (nextTimer st). rewrite start_when_stopped by assumption.
      reflexivity. }
  destruct S1 as [h S1]. exists h. cbv zeta.
  pose proof (step_wf (now, ClickStart) st W) as W1.
  set (st1 := step (now, ClickStart) st) in *.
  assert (Rn1 : running st1 = true) by (rewrite S1; reflexivity).
  assert (T1 : timerRef st1 = Some h) by (rewrite S1; reflexivity).
  assert (E1 : endRef st1 = Some (now + secondsLeft st * 1000))
    by (rewrite S1; reflexivity).
  assert (X : forall ts,
    (exists t, In t ts /\ now + secondsLeft st * 1000 <= t) ->
    secondsLeft (run (fires h ts) st1) = 0
    /\ in_phase Expired (run (fires h ts) st1)
    /\ live (run (fires h ts) st1) = ∅
    /\ timeUpShown (run (fires h ts) st1) = true).
  { intros ts [t [I Le]].
    assert (Y : exists u, In u ts /\ now + secondsLeft st * 1000 - u < 500)
      by (exists t; split; [assumption|lia]).
    rewrite (fires_past_end h _ ts st1 W1 Rn1 T1 E1 Y).
    cbn. auto. }
  split; [exact Rn1|]. split; [rewrite S1; reflexivity|].
  split; [exact E1|]. split; [exact T1|]. split; [rewrite S1; reflexivity|].
  split; [|split; [exact X|]].
  - intros ts t Rn2.
    assert (W2 : wf (run (fires h ts) st1)) by (apply run_wf; exact W1).
    assert (K : timerRef (run (fires h ts) st1) = Some h
                /\ endRef (run (fires h ts) st1)
                   = Some (now + secondsLeft st * 1000)).
    { destruct (classic_all_before (now + secondsLeft st * 1000) ts)
        as [A|A].
      - destruct (fires_before_end h _ ts st1 W1 Rn1 T1 E1 A)
          as (_ & _ & T2 & E2 & _). auto.
      - rewrite (fires_past_end h _ ts st1 W1 Rn1 T1 E1 A) in Rn2.
        discriminate. }
    destruct K as [T2 E2].
    rewrite (tick_step t _ h _ W2 Rn2 T2 E2).
    destruct (Z.ltb_spec (now + secondsLeft st * 1000 - t) 500) as [Lt|Ge];
      cbn [secondsLeft]; [|reflexivity].
    unfold remaining. rewrite round_thousandths.
    assert ((now + secondsLeft st * 1000 - t + 500) / 1000 < 1)
      by (apply Z.div_lt_upper_bound; lia).
    lia.
  - apply X. exists (now + secondsLeft st * 1000). split; [|lia].
    apply regular_reaches. exact P.
Qed.

Lemma drift_free_expiry_witness :
  0 < secondsLeft (run [] initial)
  /\ exists h,
       in_phase Expired
         (run (fires h [100; 217; 300; 90000; 150350; 299000; 300000])
            (step (0, ClickStart) (run [] initial))).
Proof.
  split; [reflexivity|].
  destruct (drift_free_expiry [] 0 eq_refl)
    as (h & _ & _ & _ & _ & _ & _ & X & _).
  exists h.
  refine (proj1 (proj2
    (X [100; 217; 300; 90000; 150350; 299000; 300000] _))).
  exists 300000. split; [|discriminate].
  do 6 right. left. reflexivity.
Defined.

(** *** C4: Pause *)

(** C4, as the claim states it, fails: Start at clock reading 0 with 300
    seconds, firings at 250 and 500 (the display stays at 300), Pause at
    600.  A last recomputation from the end time would give 299; the
    component keeps 300. *)
Lemma pause_recomputes_counterexample :
  running (run [(0, ClickStart); (250, IntervalFires 1%nat);
                (500, IntervalFires 1%nat)] initial) = true
  /\ endRef (run [(0, ClickStart); (250, IntervalFires 1%nat);
                  (500, IntervalFires 1%nat)] initial) = Some 300000
  /\ remaining 300000 600 = 299
  /\ secondsLeft
       (run [(0, ClickStart); (250, IntervalFires 1%nat);
             (500, IntervalFires 1%nat); (600, ClickPause)] initial) = 300
  /\ secondsLeft
       (run [(0, ClickStart); (250, IntervalFires 1%nat);
             (500, IntervalFires 1%nat); (600, ClickPause)] initial)
     <> remaining 300000 600.
Proof. vm_compute. repeat split; congruence. Qed.

(** C4, amended. Pause while running keeps [secondsLeft] as the last firing
    published it (the clock is not read), clears the end time, cancels the
    interval and leaves the countdown stopped (the Paused phase). *)
Theorem pause_keeps_published_seconds (evs : list (Z * action)) (now : Z) :
  running (run evs initial) = true ->
  let st := run evs initial in
  let st' := step (now, ClickPause) st in
  secondsLeft st' = secondsLeft st
  /\ secondsLeft (pauseTimer st) = secondsLeft st
  /\ endRef st' = None /\ running st' = false /\ live st' = ∅
  /\ in_phase Paused st'.
Proof.
  intros R. cbv zeta. rewrite pause_step by apply reachable_wf.
  cbn [secondsLeft endRef running live in_phase].
  split; [reflexivity|]. split.
  { unfold pauseTimer, clearInterval.
    destruct (timerRef (run evs initial)); reflexivity. }
  repeat split; reflexivity.
Qed.

Lemma pause_keeps_published_seconds_witness :
  running (run [(0, ClickStart); (250, IntervalFires 1%nat)] initial) = true
  /\ secondsLeft
       (step (600, ClickPause)
          (run [(0, ClickStart); (250, IntervalFires 1%nat)] initial))
     = secondsLeft (run [(0, ClickStart); (250, IntervalFires 1%nat)] initial).
Proof.
  split; [reflexivity|].
  apply (pause_keeps_published_seconds
           [(0, ClickStart); (250, IntervalFires 1%nat)] 600).
  reflexivity.
Defined.

(** *** C5: Pause, then Resume *)

(** C5. From a running countdown, Pause at [t1] and Resume at [t2]: the
    displayed seconds are those at the moment of Pause, whatever [t1] and
    [t2] are; no firing between the two changes anything; Resume sets the
    end time to [t2 + secondsLeft * 1000], so a firing [d] ms after Resume
    counts from the preserved value only. *)
Theorem pause_resume_round_trip (evs : list (Z * action)) (t1 t2 : Z) :
  running (run evs initial) = true ->
  let st := run evs initial in
  let paused := step (t1, ClickPause) st in
  let resumed := step (t2, ClickResume) paused in
  secondsLeft paused = secondsLeft st
  /\ (forall i t, step (t, IntervalFires i) paused = paused)
  /\ secondsLeft resumed = secondsLeft st
  /\ running resumed = true
  /\ endRef resumed = Some (t2 + secondsLeft st * 1000)
  /\ exists h, timerRef resumed = Some h /\ live resumed = {[ h ]}
     /\ forall d, secondsLeft (step (t2 + d, IntervalFires h) resumed)
                  = remaining (secondsLeft st * 1000) d.
Proof.
  intros R. cbv zeta. set (st := run evs initial) in *.
  assert (W : wf st) by apply reachable_wf.
  destruct (wf_running _ W R) as (h0 & e0 & _ & _ & _ & P).
  pose proof (step_wf (t1, ClickPause) st W) as Wp.
  rewrite pause_step in * by assumption.
  set (paused := mkState _ _ _ _ _ _ _ _) in *.
  pose proof (step_wf (t2, ClickResume) paused Wp) as Wr.
  rewrite (resume_when_stopped t2 paused Wp eq_refl P) in *.
  cbn [secondsLeft running endRef timerRef live nextTimer paused] in *.
  split; [reflexivity|]. split.
  { intros i t. apply dead_interval_silent. cbn. set_solver. }
  split; [reflexivity|]. split; [reflexivity|]. split; [reflexivity|].
  exists (nextTimer st). split; [reflexivity|]. split; [reflexivity|].
  intros d.
  rewrite (tick_step (t2 + d) _ (nextTimer st) (t2 + secondsLeft st * 1000)
             Wr eq_refl eq_refl eq_refl).
  replace (t2 + secondsLeft st * 1000 - (t2 + d))
    with (secondsLeft st * 1000 - d) by lia.
  unfold remaining.
  replace (t2 + secondsLeft st * 1000 - (t2 + d))
    with (secondsLeft st * 1000 - d) by lia.
  rewrite round_thousandths.
  destruct (Z.ltb_spec (secondsLeft st * 1000 - d) 500) as [Lt|Ge];
    cbn [secondsLeft]; [|reflexivity].
  assert ((secondsLeft st * 1000 - d + 500) / 1000 < 1)
    by (apply Z.div_lt_upper_bound; lia).
  lia.
Qed.

Lemma pause_resume_round_trip_witness :
  running (run [(0, ClickStart); (1000, IntervalFires 1%nat)] initial) = true
  /\ secondsLeft
       (run [(0, ClickStart); (1000, IntervalFires 1%nat);
             (1200, ClickPause); (987654321, ClickResume)] initial) = 299.
Proof.
  split; [reflexivity|].
  exact (proj1 (proj2 (proj2
    (pause_resume_round_trip [(0, ClickStart); (1000, IntervalFires 1%nat)]
       1200 987654321 eq_refl)))).
Defined.

(** *** C10: Start while running *)

(** C10. Start while the countdown runs is not refused (a running countdown
    always shows a positive value): it sets the end time to
    [now + secondsLeft * 1000] from the displayed value, creates no interval
    and cancels none, and the next firing of the one live interval counts
    from the new end time. *)
Theorem start_while_running_reanchors (evs : list (Z * action)) (now : Z) :
  running (run evs initial) = true ->
  let st := run evs initial in
  let st' := step (now, ClickStart) st in
  0 < secondsLeft st
  /\ alerts now ClickStart st = None
  /\ endRef st' = Some (now + secondsLeft st * 1000)
  /\ secondsLeft st' = secondsLeft st /\ running st' = true
  /\ timerRef st' = timerRef st /\ live st' = live st
  /\ nextTimer st' = nextTimer st
  /\ exists h, live st' = {[ h ]}
     /\ forall i t, i ∈ live st' ->
          secondsLeft (step (t, IntervalFires i) st')
          = remaining (now + secondsLeft st * 1000) t.
Proof.
  intros R. cbv zeta. set (st := run evs initial) in *.
  assert (W : wf st) by apply reachable_wf.
  destruct (wf_running _ W R) as (h & e & T & L & E & P).
  pose proof (step_wf (now, ClickStart) st W) as W'.
  rewrite start_when_running in * by assumption.
  cbn [secondsLeft running endRef timerRef live nextTimer].
  split; [exact P|]. split.
  { unfold alerts, startTimer. destruct (Z.leb_spec (secondsLeft st) 0);
      [lia|reflexivity]. }
  do 6 (split; [reflexivity|]).
  exists h. split; [exact L|]. intros i t I.
  assert (i = h) by (rewrite L in I; set_solver). subst i.
  rewrite (tick_step t _ h (now + secondsLeft st * 1000) W' eq_refl T eq_refl).
  unfold remaining. rewrite round_thousandths.
  destruct (Z.ltb_spec (now + secondsLeft st * 1000 - t) 500) as [Lt|Ge];
    cbn [secondsLeft]; [|reflexivity].
  assert ((now + secondsLeft st * 1000 - t + 500) / 1000 < 1)
    by (apply Z.div_lt_upper_bound; lia).
  lia.
Qed.

Lemma start_while_running_reanchors_witness :
  running (run [(0, ClickStart); (10000, IntervalFires 1%nat)] initial) = true
  /\ endRef
       (run [(0, ClickStart); (10000, IntervalFires 1%nat);
             (10100, ClickStart)] initial) = Some (10100 + 290 * 1000).
Proof.
  split; [reflexivity|].
  exact (proj1 (proj2 (proj2
    (start_while_running_reanchors
       [(0, ClickStart); (10000, IntervalFires 1%nat)] 10100 eq_refl)))).
Defined.

(** *** C8: one live interval *)

Lemma wf_size st : wf st -> (size (live st) <= 1)%nat.
Proof.
  unfold wf. destruct (running st).
  - intros [(h & _ & L) _]. rewrite L, size_singleton. lia.
  - intros [L _]. rewrite L, size_empty. lia.
Qed.

(** C8. In every reachable state at most one interval is live: the one in
    [timerRef] while running, none otherwise.  The effect that starts an
    interval clears the one in [timerRef] first, so only the new one is live
    afterwards; a second Start or Resume right after the first creates no
    interval; after Pause or Reset no interval is live; and a cleared
    interval never runs its callback. *)
Theorem one_live_sampler :
  (forall evs,
     (size (live (run evs initial)) <= 1)%nat
     /\ (running (run evs initial) = true ->
         exists h, timerRef (run evs initial) = Some h
                   /\ live (run evs initial) = {[ h ]})
     /\ (running (run evs initial) = false -> live (run evs initial) = ∅))
  /\ (forall st now h,
        running st = true -> timerRef st = Some h -> live st = {[ h ]} ->
        live (effect_running now st) = {[ nextTimer st ]}
        /\ timerRef (effect_running now st) = Some (nextTimer st))
  /\ (forall evs t1 t2 a,
        a = ClickStart \/ a = ClickResume ->
        let st1 := step (t1, a) (run evs initial) in
        let st2 := step (t2, a) st1 in
        live st2 = live st1 /\ nextTimer st2 = nextTimer st1
        /\ (size (live st2) <= 1)%nat)
  /\ (forall evs now a,
        a = ClickPause \/ a = ClickReset ->
        live (step (now, a) (run evs initial)) = ∅)
  /\ (forall st i t, i ∉ live st -> step (t, IntervalFires i) st = st).
Proof.
  split; [|split; [|split; [|split]]].
  - intros evs. pose proof (reachable_wf evs) as W.
    split; [apply wf_size, W|]. split; intros R.
    + destruct (wf_running _ W R) as (h & e & T & L & _). eauto.
    + apply (wf_stopped _ W R).
  - intros st now h R T L. open_state st. subst.
    destruct er as [e|]; [destruct (e =? 0) eqn:Z0|]; render; rewrite ?Z0;
      (split; [set_solver|reflexivity]).
  - intros evs t1 t2 a A. cbv zeta.
    pose proof (reachable_wf evs) as W.
    pose proof (step_wf (t1, a) _ W) as W1.
    set (st1 := step (t1, a) (run evs initial)) in *.
    assert (Q : step (t2, a) st1 = st1
                \/ (live (step (t2, a) st1) = live st1
                    /\ nextTimer (step (t2, a) st1) = nextTimer st1)).
    { destruct (Z_lt_le_dec 0 (secondsLeft st1)) as [P|P].
      - right.
        assert (R1 : running st1 = true).
        { subst st1. destruct (running (run evs initial)) eqn:R0.
          - destruct A as [-> | ->];
              [rewrite start_when_running by assumption
              |rewrite resume_when_running by assumption]; reflexivity.
          - assert (P0 : 0 < secondsLeft (run evs initial)).
            { destruct (Z_lt_le_dec 0 (secondsLeft (run evs initial)))
                as [?|Le]; [assumption|].
              destruct A as [-> | ->];
                [rewrite start_at_zero in P by assumption
                |rewrite resume_at_zero in P by assumption]; lia. }
            destruct A as [-> | ->];
              [rewrite start_when_stopped by assumption
              |rewrite resume_when_stopped by assumption]; reflexivity. }
        destruct A as [-> | ->];
          [rewrite start_when_running by assumption
          |rewrite resume_when_running by assumption]; split; reflexivity.
      - left. destruct A as [-> | ->];
          [apply start_at_zero|apply resume_at_zero]; assumption. }
    destruct Q as [-> | [-> ->]];
      (split; [reflexivity|]; split; [reflexivity|]; apply wf_size, W1).
  - intros evs now a [-> | ->];
      [rewrite pause_step by apply reachable_wf
      |rewrite reset_step by apply reachable_wf]; reflexivity.
  - intros st i t. apply dead_interval_silent.
Qed.

Lemma one_live_sampler_witness :
  live (run [(0, ClickStart); (5, ClickStart); (9, ClickResume)] initial)
  = live (run [(0, ClickStart); (5, ClickStart)] initial)
  /\ live (run [(0, ClickStart); (5, ClickStart); (9, ClickPause)] initial)
     = ∅.
Proof.
  destruct one_live_sampler as (_ & _ & _ & P & _).
  split; [reflexivity|].
  exact (P [(0, ClickStart); (5, ClickStart)] 9 ClickPause
           (or_introl eq_refl)).
Defined.

(** *** C6 and C7: Set *)

Lemma totalSeconds_from_app total evs1 evs2 st :
  totalSeconds_from total (evs1 ++ evs2) st
  = totalSeconds_from (totalSeconds_from total evs1 st) evs2 (run evs1 st).
Proof.
  revert total st. induction evs1 as [|ev evs1 IH]; intros total st; simpl.
  - reflexivity.
  - apply IH.
Qed.

Lemma applyMinutes_accepts st z :
  JS.isFinite (JS.Number (minutesInput st)) = true ->
  JS.le (JS.Number (minutesInput st)) (JS.of_Z 0) = false ->
  JS.Math_round (JS.mul (JS.Number (minutesInput st)) (JS.of_Z 60))
  = JS.WInt z ->
  applyMinutes st =
    (set_endRef None (set_running false (set_secondsLeft z st)), None).
Proof.
  intros F L M. unfold applyMinutes. rewrite F, L, M. reflexivity.
Qed.

(** C6. Set with a finite number of minutes [n > 0] in the field is
    accepted without an alert; it stores [Math.round(n * 60)], the product
    being the one of doubles, as the displayed seconds, which is from then
    on the duration of the last Set; the countdown is stopped with the end
    time cleared (the Idle phase) and no interval is live.  (A product
    beyond the range of doubles has no whole number [z] to store.) *)
Theorem configure_sets_duration
  (evs : list (Z * action)) (now : Z) (z : Z) :
  JS.isFinite (JS.Number (minutesInput (run evs initial))) = true ->
  JS.le (JS.Number (minutesInput (run evs initial))) (JS.of_Z 0) = false ->
  JS.Math_round
    (JS.mul (JS.Number (minutesInput (run evs initial))) (JS.of_Z 60))
  = JS.WInt z ->
  let st := run evs initial in
  let st' := run (evs ++ [(now, ClickSet)]) initial in
  alerts now ClickSet st = None
  /\ secondsLeft st' = z
  /\ totalSeconds (evs ++ [(now, ClickSet)]) = z
  /\ in_phase Idle st' /\ endRef st' = None /\ live st' = ∅.
Proof.
  intros F L M. cbv zeta.
  pose proof (applyMinutes_accepts _ z F L M) as A.
  pose proof (set_step now _ z (reachable_wf evs) A) as S.
  unfold totalSeconds. rewrite totalSeconds_from_app, run_app.
  cbn [run totalSeconds_from snd]. rewrite S.
  unfold alerts. rewrite A.
  cbn [snd secondsLeft set_endRef set_running set_secondsLeft in_phase
       running endRef live].
  repeat split; reflexivity.
Qed.

Lemma configure_sets_duration_witness :
  JS.isFinite (JS.Number "1.025") = true
  /\ JS.le (JS.Number "1.025") (JS.of_Z 0) = false
  /\ JS.Math_round (JS.mul (JS.Number "1.025") (JS.of_Z 60)) = JS.WInt 61
  /\ secondsLeft
       (run ([(0, ChangeMinutes "1.025")] ++ [(1, ClickSet)]) initial) = 61.
Proof.
  assert (F : JS.isFinite (JS.Number "1.025") = true)
    by (vm_compute; reflexivity).
  assert (L : JS.le (JS.Number "1.025") (JS.of_Z 0) = false)
    by (vm_compute; reflexivity).
  assert (M : JS.Math_round (JS.mul (JS.Number "1.025") (JS.of_Z 60))
              = JS.WInt 61) by (vm_compute; reflexivity).
  split; [exact F|]. split; [exact L|]. split; [exact M|].
  exact (proj1 (proj2
    (configure_sets_duration [(0, ChangeMinutes "1.025")] 1 61 F L M))).
Defined.

(** C7. When the number in the minutes field is not finite or is not
    positive, Set calls [alert('Enter minutes > 0')] and returns: no field of
    the state, no ref and no interval changes. *)
Theorem configure_rejects_invalid (st : State) (now : Z) :
  JS.isFinite (JS.Number (minutesInput st)) = false
  \/ JS.le (JS.Number (minutesInput st)) (JS.of_Z 0) = true ->
  applyMinutes st = (st, Some "Enter minutes > 0")
  /\ step (now, ClickSet) st = st
  /\ alerts now ClickSet st = Some "Enter minutes > 0".
Proof.
  intros H.
  assert (A : applyMinutes st = (st, Some "Enter minutes > 0")).
  { unfold applyMinutes.
    destruct H as [H|H]; rewrite H; [reflexivity|].
    rewrite orb_true_r. reflexivity. }
  split; [exact A|]. split.
  - apply set_rejected. rewrite A. discriminate.
  - unfold alerts. rewrite A. reflexivity.
Qed.

Lemma configure_rejects_invalid_witness :
  (forall s, In s ["0"; "-5"; "NaN"; "abc"; ""; "Infinity"] ->
     JS.isFinite (JS.Number s) = false
     \/ JS.le (JS.Number s) (JS.of_Z 0) = true)
  /\ (forall s, In s ["0"; "-5"; "NaN"; "abc"; ""; "Infinity"] ->
      step (7, ClickSet)
        (run [(0, ClickStart); (3, ChangeMinutes s)] initial)
      = run [(0, ClickStart); (3, ChangeMinutes s)] initial).
Proof.
  assert (V : forall s, In s ["0"; "-5"; "NaN"; "abc"; ""; "Infinity"] ->
     JS.isFinite (JS.Number s) = false
     \/ JS.le (JS.Number s) (JS.of_Z 0) = true).
  { intros s I. repeat (destruct I as [<-|I]; [vm_compute; auto|]).
    destruct I. }
  split; [exact V|].
  intros s I.
  apply (configure_rejects_invalid
           (run [(0, ClickStart); (3, ChangeMinutes s)] initial) 7).
  repeat (destruct I as [<-|I]; [vm_compute; auto|]). destruct I.
Defined.

(** *** The minutes field and the duration of the last Set *)

Lemma commit_minutesInput now a b :
  minutesInput (commit now a b) = minutesInput b.
Proof.
  unfold commit. destruct (Bool.eqb _ _); [reflexivity|].
  open_state b.
  destruct rn, tr, er as [e|]; try destruct (e =? 0) eqn:Z0;
    render; rewrite ?Z0; reflexivity.
Qed.

Lemma handle_minutesInput now a st :
  keeps_field (now, a) = true ->
  minutesInput (handle now a st) = minutesInput st.
Proof.
  destruct a; cbn [keeps_field snd handle]; intros K; try discriminate.
  - unfold applyMinutes. destruct (_ || _); [reflexivity|].
    destruct (JS.Math_round _); reflexivity.
  - unfold startTimer. destruct (_ <=? _); reflexivity.
  - unfold pauseTimer, clearInterval. destruct (timerRef st); reflexivity.
  - unfold resumeTimer. destruct (_ <=? _); reflexivity.
  - unfold resetTimer, clearInterval. destruct (timerRef st); reflexivity.
  - reflexivity.
  - destruct (decide _); [|reflexivity].
    unfold tick. cbn [set_secondsLeft timerRef].
    destruct (_ <=? _); [|reflexivity].
    unfold clearInterval. destruct (timerRef st); reflexivity.
Qed.

Lemma step_minutesInput ev st :
  keeps_field ev = true -> minutesInput (step ev st) = minutesInput st.
Proof.
  destruct ev as [now a]. intros K. unfold step. cbn [fst snd].
  rewrite commit_minutesInput. apply handle_minutesInput, K.
Qed.

Lemma run_minutesInput evs st :
  forallb keeps_field evs = true ->
  minutesInput (run evs st) = minutesInput st.
Proof.
  revert st. induction evs as [|ev evs IH]; intros st K; [reflexivity|].
  cbn [forallb] in K. apply andb_true_iff in K as [K1 K2].
  cbn [run]. rewrite (IH _ K2). apply step_minutesInput, K1.
Qed.

Lemma totalSeconds_stable evs st z :
  JS.isFinite (JS.Number (minutesInput st)) = true ->
  JS.le (JS.Number (minutesInput st)) (JS.of_Z 0) = false ->
  JS.Math_round (JS.mul (JS.Number (minutesInput st)) (JS.of_Z 60))
  = JS.WInt z ->
  forallb keeps_field evs = true ->
  totalSeconds_from z evs st = z.
Proof.
  revert st. induction evs as [|ev evs IH]; intros st F L M K; [reflexivity|].
  cbn [forallb] in K. apply andb_true_iff in K as [K1 K2].
  cbn [totalSeconds_from].
  assert (T : match snd ev, applyMinutes st with
              | ClickSet, (st', None) => secondsLeft st'
              | _, _ => z
              end = z).
  { rewrite (applyMinutes_accepts st z F L M).
    destruct (snd ev); reflexivity. }
  rewrite T.
  apply IH; try assumption; rewrite step_minutesInput by assumption;
    assumption.
Qed.

Lemma or_else_nonempty s d : s <> "" -> or_else s d = VStr s.
Proof. destruct s; [congruence|reflexivity]. Qed.

(** Minutes whose seconds are the whole number [k > 0]: Set accepts them
    and stores [k]; the field is not empty. *)
Lemma whole_seconds s k :
  JS.mul (JS.Number s) (JS.of_Z 60) = JS.of_Z k -> 0 < k < 2 ^ 53 ->
  JS.isFinite (JS.Number s) = true
  /\ JS.le (JS.Number s) (JS.of_Z 0) = false
  /\ JS.Math_round (JS.mul (JS.Number s) (JS.of_Z 60)) = JS.WInt k
  /\ s <> "".
Proof.
  intros E B.
  destruct (of_Z_small k B) as (m & e & K & _).
  destruct (positive_factor (JS.Number s) m e) as [F L];
    [rewrite E; exact K|].
  split; [exact F|]. split; [exact L|]. split.
  - rewrite E. apply round_of_Z, B.
  - intros ->. vm_compute in L. discriminate.
Qed.

(** After the operator types [s], minutes whose seconds are the whole number
    [k], and presses Set, whatever happens next that leaves the field alone:
    the field still reads [s], and the duration of the last Set is [k]. *)
Lemma after_set evs0 evs t1 t2 s k :
  JS.mul (JS.Number s) (JS.of_Z 60) = JS.of_Z k -> 0 < k < 2 ^ 53 ->
  forallb keeps_field evs = true ->
  minutesInput
    (run (evs0 ++ [(t1, ChangeMinutes s); (t2, ClickSet)] ++ evs) initial) = s
  /\ totalSeconds (evs0 ++ [(t1, ChangeMinutes s); (t2, ClickSet)] ++ evs)
     = k
  /\ secondsLeft
       (run (evs0 ++ [(t1, ChangeMinutes s); (t2, ClickSet)]) initial)
     = k.
Proof.
  intros E B K.
  destruct (whole_seconds s k E B) as (F & L & M & _).
  set (st0 := run evs0 initial).
  assert (W1 : wf (step (t1, ChangeMinutes s) st0))
    by (apply step_wf, reachable_wf).
  assert (M1 : minutesInput (step (t1, ChangeMinutes s) st0) = s).
  { unfold step. cbn [fst snd handle]. rewrite commit_minutesInput.
    reflexivity. }
  assert (A : applyMinutes (step (t1, ChangeMinutes s) st0)
              = (set_endRef None (set_running false
                   (set_secondsLeft k (step (t1, ChangeMinutes s) st0))),
                 None))
    by (apply applyMinutes_accepts; rewrite M1; assumption).
  pose proof (set_step t2 _ k W1 A) as S.
  split; [|split].
  - rewrite !run_app. fold st0. cbn [run].
    rewrite run_minutesInput by assumption.
    rewrite step_minutesInput by reflexivity. exact M1.
  - unfold totalSeconds. rewrite !totalSeconds_from_app.
    fold st0. cbn [run totalSeconds_from snd]. rewrite A.
    cbn [secondsLeft set_endRef set_running set_secondsLeft].
    apply totalSeconds_stable; try assumption;
      rewrite step_minutesInput by reflexivity; rewrite M1; assumption.
  - rewrite run_app. fold st0. cbn [run]. rewrite S. reflexivity.
Qed.
(** *** C2: the progress fraction *)

(** C2, as the claim states it, fails.  The operator sets 5 minutes and then
    types 10 in the field without pressing Set: 300 seconds remain of the 300
    configured, yet the fraction behind the ring is 300 / (10 * 60) = 1/2,
    not 1. *)
Lemma progress_fraction_counterexample :
  secondsLeft
    (run [(0, ChangeMinutes "5"); (1, ClickSet); (2, ChangeMinutes "10")]
       initial) = 300
  /\ totalSeconds
       [(0, ChangeMinutes "5"); (1, ClickSet); (2, ChangeMinutes "10")] = 300
  /\ spec_progressFraction 300 300 == 1
  /\ progressFraction
       (run [(0, ChangeMinutes "5"); (1, ClickSet); (2, ChangeMinutes "10")]
          initial) = JS.div (JS.of_Z 1) (JS.of_Z 2)
  /\ option_map Qred
       (JS.value
          (progressFraction
             (run [(0, ChangeMinutes "5"); (1, ClickSet);
                   (2, ChangeMinutes "10")] initial))) = Some (1 # 2)
  /\ progressFraction
       (run [(0, ChangeMinutes "5"); (1, ClickSet); (2, ChangeMinutes "10")]
          initial) <> JS.of_Z 1.
Proof.
  vm_compute. repeat split; try reflexivity. discriminate.
Qed.

(** With the field left empty there is no guard either: the default
    countdown, run to its end, divides 0 by 0. *)
Example progress_fraction_unguarded :
  secondsLeft
    (run [(0, ClickStart); (300000, IntervalFires 1%nat)] initial) = 0
  /\ progressFraction
       (run [(0, ClickStart); (300000, IntervalFires 1%nat)] initial)
     = JS.JNaN.
Proof. vm_compute. split; reflexivity. Qed.

(** A Set of minutes whose seconds are not whole leaves the ring past full:
    0.01 minutes store 1 second, divided by 0.6. *)
Example progress_fraction_unrounded :
  secondsLeft (run [(0, ChangeMinutes "0.01"); (1, ClickSet)] initial) = 1
  /\ JS.le
       (progressFraction
          (run [(0, ChangeMinutes "0.01"); (1, ClickSet)] initial))
       (JS.of_Z 1) = false.
Proof. vm_compute. split; reflexivity. Qed.

(** So do minutes whose product with 60 is not a double that is a whole
    number: 16.6 minutes store 996 seconds, divided by 996.0000000000001;
    right after Set the fraction is below 1. *)
Example progress_fraction_inexact_product :
  secondsLeft (run [(0, ChangeMinutes "16.6"); (1, ClickSet)] initial) = 996
  /\ JS.Math_round (JS.mul (JS.Number "16.6") (JS.of_Z 60)) = JS.WInt 996
  /\ JS.mul (JS.Number "16.6") (JS.of_Z 60) <> JS.of_Z 996
  /\ progressFraction
       (run [(0, ChangeMinutes "16.6"); (1, ClickSet)] initial)
     <> JS.of_Z 1
  /\ JS.le (JS.of_Z 1)
       (progressFraction
          (run [(0, ChangeMinutes "16.6"); (1, ClickSet)] initial)) = false.
Proof. vm_compute. repeat split; try reflexivity; discriminate. Qed.

(** With the field empty the displayed seconds are divided by 60 and
    multiplied back, which need not return them: at 250 seconds the
    fraction is 250 / 250.00000000000003. *)
Example progress_fraction_empty_field :
  minutesInput
    (run [(0, ClickStart); (50000, IntervalFires 1%nat)] initial) = ""
  /\ secondsLeft
       (run [(0, ClickStart); (50000, IntervalFires 1%nat)] initial) = 250
  /\ progressFraction
       (run [(0, ClickStart); (50000, IntervalFires 1%nat)] initial)
     <> JS.of_Z 1
  /\ progressFraction initial = JS.of_Z 1.
Proof. vm_compute. repeat split; try reflexivity; discriminate. Qed.

Lemma progress_of_field st s k :
  minutesInput st = s ->
  JS.mul (JS.Number s) (JS.of_Z 60) = JS.of_Z k -> 0 < k < 2 ^ 53 ->
  progressFraction st = JS.div (JS.of_Z (secondsLeft st)) (JS.of_Z k).
Proof.
  intros M E B.
  destruct (whole_seconds s k E B) as (_ & _ & _ & NE).
  unfold progressFraction, progressDivisor. rewrite M.
  rewrite or_else_nonempty by exact NE. cbn [ToNumber]. rewrite E.
  reflexivity.
Qed.

Lemma div_zero k : 0 < k < 2 ^ 53 -> JS.div (JS.of_Z 0) (JS.of_Z k) = JS.of_Z 0.
Proof.
  intros B. destruct (of_Z_small k B) as (m & e & -> & _). reflexivity.
Qed.

Lemma div_same k : 0 < k < 2 ^ 53 -> JS.div (JS.of_Z k) (JS.of_Z k) = JS.of_Z 1.
Proof.
  intros B. destruct (of_Z_small k B) as (m & e & -> & _). apply div_self.
Qed.

(** C2, amended.  The fraction behind the ring is
    [secondsLeft / (Number(minutesInput || secondsLeft / 60) * 60)] in
    doubles: the text of the minutes field stands for the total.  After the
    operator types minutes whose product with 60 is a double that is the
    whole number [k > 0] and presses Set, and for as long as the field is not
    edited, the duration of the last Set is [k] and the fraction is the
    quotient of doubles [remainingSeconds / totalSeconds]: it is 1 right
    after Set and 0 whenever the display reads 0, expiry included. *)
Theorem progress_fraction_after_set
  (evs0 evs : list (Z * action)) (t1 t2 : Z) (s : string) (k : Z) :
  JS.mul (JS.Number s) (JS.of_Z 60) = JS.of_Z k -> 0 < k < 2 ^ 53 ->
  forallb keeps_field evs = true ->
  let hist :=
    (evs0 ++ [(t1, ChangeMinutes s); (t2, ClickSet)] ++ evs)%list in
  let st := run hist initial in
  totalSeconds hist = k
  /\ progressFraction st
     = JS.div (JS.of_Z (secondsLeft st)) (JS.of_Z (totalSeconds hist))
  /\ (evs = [] -> progressFraction st = JS.of_Z 1)
  /\ (secondsLeft st = 0 -> progressFraction st = JS.of_Z 0).
Proof.
  intros E B K. cbv zeta.
  destruct (after_set evs0 evs t1 t2 s k E B K) as (M & T & S).
  pose proof (progress_of_field _ s k M E B) as F.
  rewrite T, F.
  split; [reflexivity|]. split; [reflexivity|]. split.
  - intros ->. rewrite app_nil_r in *. rewrite S. apply div_same, B.
  - intros ->. apply div_zero, B.
Qed.

Lemma progress_fraction_after_set_witness :
  JS.mul (JS.Number "5") (JS.of_Z 60) = JS.of_Z 300 /\ 0 < 300 < 2 ^ 53
  /\ totalSeconds
       ([] ++ [(0, ChangeMinutes "5"); (1, ClickSet)]
           ++ [(2, ClickStart); (1002, IntervalFires 1%nat)]) = 300.
Proof.
  assert (E : JS.mul (JS.Number "5") (JS.of_Z 60) = JS.of_Z 300)
    by (vm_compute; reflexivity).
  assert (B : 0 < 300 < 2 ^ 53) by (split; reflexivity).
  split; [exact E|]. split; [exact B|].
  exact (proj1
    (progress_fraction_after_set []
       [(2, ClickStart); (1002, IntervalFires 1%nat)] 0 1 "5" 300
       E B eq_refl)).
Defined.

(** *** C3: the last-quarter warning *)

(** C3, as the claim states it, fails.  The operator sets 5 minutes and then
    types 100 in the field without pressing Set: 300 seconds remain of the
    300 configured, far from the last quarter, yet the warning is shown,
    since 300 <= ceil(100 * 60 / 4). *)
Lemma final_quarter_counterexample :
  secondsLeft
    (run [(0, ChangeMinutes "5"); (1, ClickSet); (2, ChangeMinutes "100")]
       initial) = 300
  /\ totalSeconds
       [(0, ChangeMinutes "5"); (1, ClickSet); (2, ChangeMinutes "100")] = 300
  /\ spec_isInFinalQuarter 300 300 = false
  /\ warningShown
       (run [(0, ChangeMinutes "5"); (1, ClickSet); (2, ChangeMinutes "100")]
          initial) = true.
Proof. vm_compute. repeat split; reflexivity. Qed.

(** Minutes whose product with 60 is not a whole number of seconds move the
    threshold: after Set of 16.6 minutes (996 seconds), with 250 seconds
    left, the code compares with ceil(996.0000000000001 / 4) = 250 and shows
    the warning one second before the last quarter of 996 begins. *)
Example final_quarter_inexact_product :
  secondsLeft
    (run [(0, ChangeMinutes "16.6"); (1, ClickSet); (2, ClickStart);
          (746002, IntervalFires 1%nat)] initial) = 250
  /\ totalSeconds
       [(0, ChangeMinutes "16.6"); (1, ClickSet); (2, ClickStart);
        (746002, IntervalFires 1%nat)] = 996
  /\ spec_isInFinalQuarter 250 996 = false
  /\ warningThreshold
       (run [(0, ChangeMinutes "16.6"); (1, ClickSet); (2, ClickStart);
             (746002, IntervalFires 1%nat)] initial) = JS.WInt 250
  /\ warningShown
       (run [(0, ChangeMinutes "16.6"); (1, ClickSet); (2, ClickStart);
             (746002, IntervalFires 1%nat)] initial) = true.
Proof. vm_compute. repeat split; reflexivity. Qed.

Lemma warning_of_threshold st k :
  warningThreshold st = JS.WInt (Qceiling (inject_Z k / 4)) ->
  warningShown st = spec_isInFinalQuarter (secondsLeft st) k.
Proof.
  intros T. unfold warningShown, spec_isInFinalQuarter. rewrite T.
  cbn [JS.le_whole]. apply andb_comm.
Qed.

Lemma warning_of_field st s k :
  minutesInput st = s ->
  JS.mul (JS.Number s) (JS.of_Z 60) = JS.of_Z k -> 0 < k < 2 ^ 53 ->
  warningShown st = spec_isInFinalQuarter (secondsLeft st) k.
Proof.
  intros M E B. apply warning_of_threshold.
  destruct (whole_seconds s k E B) as (_ & _ & _ & NE).
  unfold warningThreshold. rewrite M, or_else_nonempty by exact NE.
  cbn [ToNumber]. rewrite E. apply ceil_quarter_of_Z, B.
Qed.

(** C3, amended.  The warning is shown exactly when
    [secondsLeft > 0 && secondsLeft <= ceil(Number(minutesInput || 5) * 60 / 4)],
    computed in doubles: the text of the minutes field stands for the total.
    After the operator types minutes whose product with 60 is a double that
    is the whole number [k > 0] and presses Set, and for as long as the field
    is not edited, this is the last quarter of the duration configured by
    that Set; with the field empty it is the last quarter of 300 seconds.
    After Set of 5 minutes, Start, and 3:45 of running, 75 seconds remain
    and the warning is shown. *)
Theorem final_quarter_after_set
  (evs0 evs : list (Z * action)) (t1 t2 : Z) (s : string) (k : Z) :
  JS.mul (JS.Number s) (JS.of_Z 60) = JS.of_Z k -> 0 < k < 2 ^ 53 ->
  forallb keeps_field evs = true ->
  let hist :=
    (evs0 ++ [(t1, ChangeMinutes s); (t2, ClickSet)] ++ evs)%list in
  let st := run hist initial in
  totalSeconds hist = k
  /\ warningShown st
     = spec_isInFinalQuarter (secondsLeft st) (totalSeconds hist)
  /\ (forall st0, minutesInput st0 = "" ->
        warningShown st0 = spec_isInFinalQuarter (secondsLeft st0) 300)
  /\ secondsLeft
       (run [(0, ChangeMinutes "5"); (1, ClickSet); (2, ClickStart);
             (112502, IntervalFires 1%nat); (225002, IntervalFires 1%nat)]
          initial) = 75
  /\ warningShown
       (run [(0, ChangeMinutes "5"); (1, ClickSet); (2, ClickStart);
             (112502, IntervalFires 1%nat); (225002, IntervalFires 1%nat)]
          initial) = true.
Proof.
  intros E B K. cbv zeta.
  destruct (after_set evs0 evs t1 t2 s k E B K) as (M & T & S).
  split; [exact T|]. split; [|split; [|split]].
  - rewrite T. apply (warning_of_field _ s k M E B).
  - intros st0 M0. apply warning_of_threshold.
    unfold warningThreshold. rewrite M0. vm_compute. reflexivity.
  - vm_compute. reflexivity.
  - vm_compute. reflexivity.
Qed.

Lemma final_quarter_after_set_witness :
  JS.mul (JS.Number "5") (JS.of_Z 60) = JS.of_Z 300 /\ 0 < 300 < 2 ^ 53
  /\ warningShown
       (run ([] ++ [(0, ChangeMinutes "5"); (1, ClickSet)]
                ++ [(2, ClickStart); (230002, IntervalFires 1%nat)]) initial)
     = spec_isInFinalQuarter
         (secondsLeft
            (run ([] ++ [(0, ChangeMinutes "5"); (1, ClickSet)]
                     ++ [(2, ClickStart); (230002, IntervalFires 1%nat)])
               initial))
         (totalSeconds
            ([] ++ [(0, ChangeMinutes "5"); (1, ClickSet)]
                ++ [(2, ClickStart); (230002, IntervalFires 1%nat)])).
Proof.
  assert (E : JS.mul (JS.Number "5") (JS.of_Z 60) = JS.of_Z 300)
    by (vm_compute; reflexivity).
  assert (B : 0 < 300 < 2 ^ 53) by (split; reflexivity).
  split; [exact E|]. split; [exact B|].
  exact (proj1 (proj2
    (final_quarter_after_set []
       [(2, ClickStart); (230002, IntervalFires 1%nat)] 0 1 "5" 300
       E B eq_refl))).
Defined.
(** ** Further properties of the countdown *)

Import Lifecycle.

Lemma remaining_nonneg e t : 0 <= remaining e t.
Proof. unfold remaining. lia. Qed.

(** Every event is one of: no change to the seconds, an accepted Set, a
    Reset, or a firing of the live interval. *)
Lemma step_seconds ev st :
  wf st ->
  secondsLeft (step ev st) = secondsLeft st
  \/ (exists z, snd ev = ClickSet /\ 0 <= z
                /\ secondsLeft (step ev st) = z)
  \/ secondsLeft (step ev st) = 0
  \/ (exists e, running st = true /\ endRef st = Some e
                /\ running (step ev st) = true
                /\ endRef (step ev st) = Some e
                /\ 500 <= e - fst ev
                /\ secondsLeft (step ev st) = remaining e (fst ev)).
Proof.
  intros W. destruct ev as [now a]. destruct a; cbn [fst snd].
  - left. unfold step. cbn [fst snd handle].
    rewrite commit_same by reflexivity. reflexivity.
  - destruct (set_cases now st W) as [-> | (z & [P| ->] & ->)].
    + left. reflexivity.
    + right. left. exists z. auto.
    + left. reflexivity.
  - left. destruct (running st) eqn:R.
    + rewrite start_when_running by assumption. reflexivity.
    + destruct (Z_lt_le_dec 0 (secondsLeft st)) as [P|P].
      * rewrite start_when_stopped by assumption. reflexivity.
      * rewrite start_at_zero by assumption. reflexivity.
  - left. rewrite pause_step by assumption. reflexivity.
  - left. destruct (Z_lt_le_dec 0 (secondsLeft st)) as [P|P].
    + destruct (running st) eqn:R.
      * rewrite resume_when_running by assumption. reflexivity.
      * rewrite resume_when_stopped by assumption. reflexivity.
    + rewrite resume_at_zero by assumption. reflexivity.
  - right. right. left. rewrite reset_step by assumption. reflexivity.
  - left. unfold step. cbn [fst snd handle].
    rewrite commit_same by reflexivity. reflexivity.
  - destruct (decide (i ∈ live st)) as [I|I].
    + destruct (running st) eqn:R.
      * destruct (wf_running _ W R) as (h & e & T & L & E & P).
        assert (i = h) by (rewrite L in I; set_solver). subst i.
        rewrite (tick_step now st h e) by assumption.
        destruct (Z.ltb_spec (e - now) 500) as [Lt|Ge].
        -- right. right. left. reflexivity.
        -- right. right. right. exists e. cbn. auto 10.
      * destruct (wf_stopped _ W R) as [L E]. rewrite L in I. set_solver.
    + left. rewrite dead_interval_silent by assumption. reflexivity.
Qed.

(** X1. The displayed seconds are never negative, whatever the operator
    does and whenever the interval fires, even with a clock that jumps. *)
Theorem display_never_negative (evs : list (Z * action)) :
  0 <= secondsLeft (run evs initial).
Proof.
  assert (G : forall evs st, wf st -> 0 <= secondsLeft st ->
                             0 <= secondsLeft (run evs st)).
  { clear evs. induction evs as [|ev evs IH]; intros st W P; [exact P|].
    cbn [run]. apply IH; [apply step_wf, W|].
    destruct (step_seconds ev st W)
      as [-> | [(z & _ & Pz & ->) | [-> | (e & _ & _ & _ & _ & _ & ->)]]].
    - exact P.
    - exact Pz.
    - lia.
    - apply remaining_nonneg. }
  apply G; [apply wf_initial|]. cbn. lia.
Qed.

(** X2. In every reachable state the countdown runs exactly when the end
    time is set, and a running countdown shows a positive number of
    seconds. *)
Theorem running_iff_end_time (evs : list (Z * action)) :
  (running (run evs initial) = true <-> endRef (run evs initial) <> None)
  /\ (running (run evs initial) = true -> 0 < secondsLeft (run evs initial))
  /\ (running (run evs initial) = false -> in_phase Idle (run evs initial)).
Proof.
  pose proof (reachable_wf evs) as W.
  destruct (running (run evs initial)) eqn:R.
  - destruct (wf_running _ W R) as (h & e & _ & _ & E & P).
    split; [|split]; [|auto|discriminate].
    split; [intros _; rewrite E; discriminate|reflexivity].
  - destruct (wf_stopped _ W R) as [_ E].
    split; [|split]; [|discriminate|intros _; split; assumption].
    split; [discriminate|]. intros H. contradiction.
Qed.

(** X3. A stopped countdown (paused, reset, expired or freshly set) is not
    touched by any firing of any interval. *)
Theorem stopped_countdown_inert
  (evs : list (Z * action)) (i : nat) (t : Z) :
  running (run evs initial) = false ->
  step (t, IntervalFires i) (run evs initial) = run evs initial.
Proof.
  intros R. apply dead_interval_silent.
  destruct (wf_stopped _ (reachable_wf evs) R) as [-> _]. set_solver.
Qed.

Lemma stopped_countdown_inert_witness :
  running (run [(0, ClickStart); (700, IntervalFires 1%nat); (900, ClickPause)]
             initial) = false
  /\ run [(0, ClickStart); (700, IntervalFires 1%nat); (900, ClickPause);
          (950, IntervalFires 1%nat)] initial
     = run [(0, ClickStart); (700, IntervalFires 1%nat); (900, ClickPause)]
         initial.
Proof.
  split; [reflexivity|].
  exact (stopped_countdown_inert
           [(0, ClickStart); (700, IntervalFires 1%nat); (900, ClickPause)]
           1 950 eq_refl).
Defined.

(** X4. Reset, from any reachable state: the display reads 0 with the
    "Time up!" caption and without the warning, the countdown is stopped
    with the end time cleared, no interval is live and no later firing
    changes anything; the minutes field is kept. *)
Theorem reset_from_anywhere (evs : list (Z * action)) (now : Z) :
  let st' := step (now, ClickReset) (run evs initial) in
  secondsLeft st' = 0 /\ running st' = false /\ endRef st' = None
  /\ live st' = ∅ /\ timeUpShown st' = true /\ warningShown st' = false
  /\ minutesInput st' = minutesInput (run evs initial)
  /\ forall i t, step (t, IntervalFires i) st' = st'.
Proof.
  cbv zeta. rewrite reset_step by apply reachable_wf.
  split; [reflexivity|]. split; [reflexivity|]. split; [reflexivity|].
  split; [reflexivity|]. split; [reflexivity|]. split.
  { unfold warningShown. cbn [secondsLeft]. apply andb_false_r. }
  split; [reflexivity|].
  intros i t. apply dead_interval_silent. cbn [live]. set_solver.
Qed.

(** X5. With the display at 0 there is nothing to start: Start only alerts
    "Set minutes first", Resume does nothing at all, and the state is left
    as it was. *)
Theorem nothing_to_start (st : State) (now : Z) :
  secondsLeft st <= 0 ->
  alerts now ClickStart st = Some "Set minutes first"
  /\ step (now, ClickStart) st = st
  /\ alerts now ClickResume st = None
  /\ step (now, ClickResume) st = st.
Proof.
  intros P. split; [|split; [|split]].
  - unfold alerts, startTimer.
    destruct (Z.leb_spec (secondsLeft st) 0); [reflexivity|lia].
  - apply start_at_zero, P.
  - reflexivity.
  - apply resume_at_zero, P.
Qed.

Lemma nothing_to_start_witness :
  secondsLeft (run [(0, ClickStart); (5, ClickReset)] initial) <= 0
  /\ step (9, ClickStart) (run [(0, ClickStart); (5, ClickReset)] initial)
     = run [(0, ClickStart); (5, ClickReset)] initial.
Proof.
  split; [discriminate|].
  exact (proj1 (proj2
    (nothing_to_start (run [(0, ClickStart); (5, ClickReset)] initial) 9
       (fun H => match H with eq_refl => I end)))).
Defined.

(** X6. Resume does not ask for a pause: on any stopped countdown with
    seconds left it starts it exactly as Start does, except that the
    operator panel stays as it is. *)
Theorem resume_without_pause (evs : list (Z * action)) (now : Z) :
  running (run evs initial) = false -> 0 < secondsLeft (run evs initial) ->
  step (now, ClickResume) (run evs initial)
  = set_showControls (showControls (run evs initial))
      (step (now, ClickStart) (run evs initial))
  /\ running (step (now, ClickResume) (run evs initial)) = true
  /\ endRef (step (now, ClickResume) (run evs initial))
     = Some (now + secondsLeft (run evs initial) * 1000).
Proof.
  intros R P. pose proof (reachable_wf evs) as W.
  rewrite resume_when_stopped, start_when_stopped by assumption.
  repeat split; reflexivity.
Qed.

Lemma resume_without_pause_witness :
  running (run [(0, ChangeMinutes "2"); (1, ClickSet)] initial) = false
  /\ 0 < secondsLeft (run [(0, ChangeMinutes "2"); (1, ClickSet)] initial)
  /\ running
       (step (5, ClickResume)
          (run [(0, ChangeMinutes "2"); (1, ClickSet)] initial)) = true.
Proof.
  split; [reflexivity|]. split; [reflexivity|].
  exact (proj1 (proj2
    (resume_without_pause [(0, ChangeMinutes "2"); (1, ClickSet)] 5
       eq_refl eq_refl))).
Defined.

(** *** Accuracy of the display *)

Lemma remaining_bounds e t :
  500 <= e - t ->
  0 < remaining e t /\ -500 < 1000 * remaining e t - (e - t) <= 500.
Proof.
  intros G. unfold remaining. rewrite round_thousandths.
  pose proof (Z.div_mod (e - t + 500) 1000 ltac:(lia)) as D.
  pose proof (Z.mod_pos_bound (e - t + 500) 1000 ltac:(lia)) as B.
  assert (1 <= (e - t + 500) / 1000) by (apply Z.div_le_lower_bound; lia).
  lia.
Qed.

Lemma remaining_antitone e t1 t2 :
  t1 <= t2 -> remaining e t2 <= remaining e t1.
Proof.
  intros L. unfold remaining. rewrite !round_thousandths.
  apply Z.max_le_compat_l. apply Z.div_le_mono; lia.
Qed.

(** X7. The countdown stops at the first firing later than half a second
    before the end time: a firing with at least 500 ms to go keeps it
    running, any other one leaves it expired.  It can therefore stop up to
    half a second early, and never keeps running past the end time. *)
Theorem expiry_within_half_second (evs : list (Z * action)) :
  running (run evs initial) = true ->
  exists h e,
    live (run evs initial) = {[ h ]} /\ endRef (run evs initial) = Some e
    /\ forall t,
         (running (step (t, IntervalFires h) (run evs initial)) = true
          <-> 500 <= e - t)
         /\ (e - t < 500 ->
             in_phase Expired (step (t, IntervalFires h) (run evs initial))).
Proof.
  intros R. pose proof (reachable_wf evs) as W.
  destruct (wf_running _ W R) as (h & e & T & L & E & P).
  exists h, e. split; [exact L|]. split; [exact E|]. intros t.
  rewrite (tick_step t _ h e W R T E).
  destruct (Z.ltb_spec (e - t) 500) as [Lt|Ge]; cbn.
  - split; [split; [discriminate|lia]|auto].
  - split; [split; [lia|reflexivity]|lia].
Qed.

Lemma expiry_within_half_second_witness :
  running (run [(0, ClickStart)] initial) = true
  /\ exists h e,
       endRef (run [(0, ClickStart)] initial) = Some e
       /\ (e - 299501 < 500 ->
           in_phase Expired
             (step (299501, IntervalFires h) (run [(0, ClickStart)] initial))).
Proof.
  split; [reflexivity|].
  destruct (expiry_within_half_second [(0, ClickStart)] eq_refl)
    as (h & e & _ & E & X).
  exists h, e. split; [exact E|]. exact (proj2 (X 299501)).
Defined.

(** X8. While the countdown runs, what a firing displays is the time left
    to the end, to the nearest second: it is within half a second of it. *)
Theorem display_within_half_second (evs : list (Z * action)) :
  running (run evs initial) = true ->
  exists h e,
    live (run evs initial) = {[ h ]} /\ endRef (run evs initial) = Some e
    /\ forall t,
         500 <= e - t ->
         -500 < 1000 * secondsLeft
                         (step (t, IntervalFires h) (run evs initial))
                - (e - t) <= 500.
Proof.
  intros R. pose proof (reachable_wf evs) as W.
  destruct (wf_running _ W R) as (h & e & T & L & E & P).
  exists h, e. split; [exact L|]. split; [exact E|]. intros t G.
  rewrite (tick_step t _ h e W R T E).
  destruct (Z.ltb_spec (e - t) 500) as [Lt|Ge]; [lia|]. cbn [secondsLeft].
  apply remaining_bounds, G.
Qed.

Lemma display_within_half_second_witness :
  running (run [(0, ClickStart)] initial) = true
  /\ exists h e,
       endRef (run [(0, ClickStart)] initial) = Some e
       /\ (500 <= e - 1234 ->
           -500 < 1000 * secondsLeft
                           (step (1234, IntervalFires h)
                              (run [(0, ClickStart)] initial))
                  - (e - 1234) <= 500).
Proof.
  split; [reflexivity|].
  destruct (display_within_half_second [(0, ClickStart)] eq_refl)
    as (h & e & _ & E & X).
  exists h, e. split; [exact E|]. exact (X 1234).
Defined.

(** *** The display under a clock that never goes back *)

Lemma anchored_later t t' st :
  anchored t st -> t <= t' -> anchored t' st.
Proof.
  intros [P A] L. split; [exact P|].
  intros e R E. specialize (A e R E). lia.
Qed.

Lemma step_anchored t ev st :
  wf st -> anchored t st -> t <= fst ev ->
  anchored (fst ev) (step ev st)
  /\ (not_set ev = true -> secondsLeft (step ev st) <= secondsLeft st).
Proof.
  intros W A L. pose proof A as [P A'].
  destruct ev as [now a]. cbn [fst] in *.
  destruct a; unfold not_set; cbn [snd].
  - (* typing *)
    assert (S : step (now, ChangeMinutes s) st = set_minutesInput s st).
    { unfold step. cbn [fst snd handle]. apply commit_same. reflexivity. }
    rewrite S. split; [|intros _; cbn; lia].
    apply anchored_later with t; [|exact L]. exact A.
  - (* Set *)
    split; [|discriminate].
    destruct (set_cases now st W) as [-> | (z & [Pz| ->] & ->)].
    + apply anchored_later with t; assumption.
    + split; [|cbn [running]; discriminate].
      cbn [secondsLeft]. exact Pz.
    + split; [|cbn [running]; discriminate].
      cbn [secondsLeft]. exact P.
  - (* Start *)
    destruct (running st) eqn:R.
    + rewrite start_when_running by assumption.
      split; [|intros _; cbn; lia]. split; [exact P|].
      cbn. intros e _ [= <-]. lia.
    + destruct (Z_lt_le_dec 0 (secondsLeft st)) as [Q|Q].
      * rewrite start_when_stopped by assumption.
        split; [|intros _; cbn; lia]. split; [exact P|].
        cbn. intros e _ [= <-]. lia.
      * rewrite start_at_zero by assumption.
        split; [|intros _; lia]. apply anchored_later with t; assumption.
  - (* Pause *)
    rewrite pause_step by assumption.
    split; [|intros _; cbn; lia]. split; [exact P|]. cbn. discriminate.
  - (* Resume *)
    destruct (Z_lt_le_dec 0 (secondsLeft st)) as [Q|Q].
    + destruct (running st) eqn:R.
      * rewrite resume_when_running by assumption.
        split; [|intros _; cbn; lia]. split; [exact P|].
        cbn. intros e _ [= <-]. lia.
      * rewrite resume_when_stopped by assumption.
        split; [|intros _; cbn; lia]. split; [exact P|].
        cbn. intros e _ [= <-]. lia.
    + rewrite resume_at_zero by assumption.
      split; [|intros _; lia]. apply anchored_later with t; assumption.
  - (* Reset *)
    rewrite reset_step by assumption.
    split; [|intros _; cbn; lia]. split; [cbn; lia|]. cbn. discriminate.
  - (* the gear *)
    assert (S : step (now, ClickGear) st
                = set_showControls (negb (showControls st)) st).
    { unfold step. cbn [fst snd handle]. apply commit_same. reflexivity. }
    rewrite S. split; [|intros _; cbn; lia].
    apply anchored_later with t; [|exact L]. exact A.
  - (* an interval fires *)
    destruct (decide (i ∈ live st)) as [I|I].
    + destruct (running st) eqn:R.
      * destruct (wf_running _ W R) as (h & e & T & Lv & E & Q).
        assert (i = h) by (rewrite Lv in I; set_solver). subst i.
        rewrite (tick_step now st h e) by assumption.
        specialize (A' e eq_refl E).
        destruct (Z.ltb_spec (e - now) 500) as [Lt|Ge].
        -- split; [|intros _; cbn; lia]. split; [cbn; lia|].
           cbn. discriminate.
        -- destruct (remaining_bounds e now Ge) as [Rp Rb].
           assert (Rl : remaining e now <= secondsLeft st).
           { unfold remaining. rewrite round_thousandths.
             assert ((e - now + 500) / 1000 < secondsLeft st + 1)
               by (apply Z.div_lt_upper_bound; lia).
             lia. }
           split; [|intros _; cbn; exact Rl].
           split; [cbn; lia|]. cbn. intros e' _ [= <-]. lia.
      * destruct (wf_stopped _ W R) as [Lv E]. rewrite Lv in I. set_solver.
    + rewrite dead_interval_silent by assumption.
      split; [|intros _; lia]. apply anchored_later with t; assumption.
Qed.

Lemma run_anchored evs t st :
  wf st -> anchored t st -> clock_from t evs = true ->
  wf (run evs st) /\ anchored (last_clock t evs) (run evs st)
  /\ (forallb not_set evs = true -> secondsLeft (run evs st) <= secondsLeft st).
Proof.
  revert t st. induction evs as [|ev evs IH]; intros t st W A C.
  - cbn. split; [exact W|]. split; [exact A|]. intros _. lia.
  - cbn [clock_from] in C. apply andb_true_iff in C as [C1 C2].
    apply Z.leb_le in C1.
    destruct (step_anchored t ev st W A C1) as [A1 M1].
    destruct (IH (fst ev) (step ev st) (step_wf ev st W) A1 C2)
      as (W2 & A2 & M2).
    cbn [run last_clock forallb]. split; [exact W2|]. split; [exact A2|].
    intros N. apply andb_true_iff in N as [N1 N2].
    specialize (M1 N1). specialize (M2 N2). lia.
Qed.

Lemma clock_from_app t evs1 evs2 :
  clock_from t (evs1 ++ evs2) = true ->
  clock_from t evs1 = true /\ clock_from (last_clock t evs1) evs2 = true.
Proof.
  revert t. induction evs1 as [|ev evs1 IH]; intros t C.
  - cbn in *. auto.
  - cbn [app clock_from last_clock] in *.
    apply andb_true_iff in C as [C1 C2].
    destruct (IH _ C2) as [D1 D2]. rewrite C1, D1. auto.
Qed.

(** X9. With a clock that never goes back, only a Set can make the display
    go up: through any mix of Start, Pause, Resume, Reset, typing and
    firings, regular or not, the seconds shown never increase. *)
Theorem display_never_goes_up (evs0 evs : list (Z * action)) (t0 : Z) :
  clock_from t0 (evs0 ++ evs) = true ->
  forallb not_set evs = true ->
  secondsLeft (run (evs0 ++ evs) initial) <= secondsLeft (run evs0 initial).
Proof.
  intros C N. apply clock_from_app in C as [C0 C1].
  assert (A0 : anchored t0 initial).
  { split; [cbn; lia|]. cbn. discriminate. }
  destruct (run_anchored evs0 t0 initial wf_initial A0 C0) as (W1 & A1 & _).
  destruct (run_anchored evs _ _ W1 A1 C1) as (_ & _ & M).
  rewrite run_app. apply M, N.
Qed.

Lemma display_never_goes_up_witness :
  clock_from 0 ([(0, ClickStart); (4000, IntervalFires 1%nat)]
                ++ [(4100, ClickPause); (9000, ClickResume);
                    (9600, IntervalFires 2%nat); (9700, ClickStart)]) = true
  /\ secondsLeft
       (run ([(0, ClickStart); (4000, IntervalFires 1%nat)]
             ++ [(4100, ClickPause); (9000, ClickResume);
                 (9600, IntervalFires 2%nat); (9700, ClickStart)]) initial)
     <= secondsLeft
          (run [(0, ClickStart); (4000, IntervalFires 1%nat)] initial).
Proof.
  split; [reflexivity|].
  exact (display_never_goes_up
           [(0, ClickStart); (4000, IntervalFires 1%nat)]
           [(4100, ClickPause); (9000, ClickResume);
            (9600, IntervalFires 2%nat); (9700, ClickStart)] 0
           eq_refl eq_refl).
Defined.

(** *** Teardown *)

(** X10. Unmounting releases the interval from any reachable state, a
    running countdown included; nothing else changes. *)
Theorem unmount_releases_interval (evs : list (Z * action)) :
  live (unmount (run evs initial)) = ∅
  /\ secondsLeft (unmount (run evs initial)) = secondsLeft (run evs initial)
  /\ running (unmount (run evs initial)) = running (run evs initial)
  /\ forall i t,
       handle t (IntervalFires i) (unmount (run evs initial))
       = unmount (run evs initial).
Proof.
  pose proof (reachable_wf evs) as W.
  set (st := run evs initial) in *.
  assert (L : live (unmount st) = ∅).
  { destruct (running st) eqn:R.
    - destruct (wf_running _ W R) as (h & e & T & L & _).
      unfold unmount, effect_cleanup. open_state st. subst.
      cbn. set_solver.
    - destruct (wf_stopped _ W R) as [L _].
      unfold unmount, effect_cleanup. open_state st. subst.
      destruct tr; cbn; set_solver. }
  split; [exact L|].
  split; [|split].
  - unfold unmount, effect_cleanup. open_state st. destruct tr; reflexivity.
  - unfold unmount, effect_cleanup. open_state st. destruct tr; reflexivity.
  - intros i t. cbn [handle]. rewrite L.
    destruct (decide (i ∈ (∅ : gset nat))) as [I|_]; [set_solver|].
    reflexivity.
Qed.

(** *** The warning and the ring at the edges *)

Lemma le_whole_down a b T :
  b <= a -> JS.le_whole a T = true -> JS.le_whole b T = true.
Proof.
  intros L. destruct T as [|neg|c]; cbn [JS.le_whole]; try congruence.
  intros H. apply Z.leb_le in H. apply Z.leb_le. lia.
Qed.

(** A negative double has a ceiling that is not positive; so has a zero. *)
Lemma ceil_negative m e l seconds :
  0 < seconds ->
  JS.le_whole seconds (JS.ceil (binary_round_aux JS.prec JS.emax true m e l))
  = false.
Proof.
  intros P.
  destruct (round_aux_shape true m e l)
    as [E|[E|[E|(m' & e' & E)]]]; rewrite E;
    cbn [JS.ceil JS.value JS.le_whole negb]; try reflexivity.
  - apply Z.leb_gt. change (Qceiling 0) with 0. exact P.
  - apply Z.leb_gt.
    assert (C : Qceiling (- JS.magnitude m' e') <= 0).
    { assert (Hq : (- JS.magnitude m' e' <= 0)%Q).
      { unfold JS.magnitude. destruct (0 <=? e').
        - unfold Qle, Qopp, inject_Z. cbn.
          assert (0 <= 2 ^ e') by (apply Z.pow_nonneg; lia). nia.
        - unfold Qle, Qopp. cbn. lia. }
      exact (Qceiling_resp_le _ 0 Hq). }
    lia.
Qed.

Lemma quarter_of_negative n seconds :
  JS.le n (JS.of_Z 0) = true -> 0 < seconds ->
  JS.le_whole seconds
    (JS.ceil (JS.div (JS.mul n (JS.of_Z 60)) (JS.of_Z 4))) = false.
Proof.
  change (JS.of_Z 60) with (S754_finite false 8444249301319680 (-47)).
  change (JS.of_Z 4) with (S754_finite false 4503599627370496 (-50)).
  change (JS.of_Z 0) with (S754_zero false).
  intros H P.
  destruct n as [s|s| |s m0 e0]; try (cbv in H; discriminate).
  - cbn [JS.mul SFmul JS.div SFdiv JS.ceil JS.value JS.le_whole].
    apply Z.leb_gt. change (Qceiling 0) with 0. exact P.
  - destruct s; [|cbv in H; discriminate]. reflexivity.
  - destruct s; [|cbv in H; discriminate].
    cbn [JS.mul SFmul xorb].
    destruct (round_aux_shape true (Zpos (m0 * 8444249301319680))
                (e0 + -47) loc_Exact)
      as [E|[E|[E|(m' & e' & E)]]]; rewrite E.
    + cbn [JS.div SFdiv JS.ceil JS.value JS.le_whole].
      apply Z.leb_gt. change (Qceiling 0) with 0. exact P.
    + reflexivity.
    + reflexivity.
    + unfold JS.div, SFdiv.
      destruct (SFdiv_core_binary JS.prec JS.emax (Zpos m') e'
                  (Zpos 4503599627370496) (-50)) as [[mz ez] lz].
      cbn [xorb]. apply ceil_negative, P.
Qed.

(** X11. The warning is shown only while seconds are left, so never together
    with the "Time up!" caption; and once it is shown it stays shown as the
    seconds go down, all the way to 1, as long as the minutes field keeps
    its text. *)
Theorem warning_stays_until_zero (st st' : State) :
  warningShown st = true ->
  minutesInput st' = minutesInput st ->
  0 < secondsLeft st' <= secondsLeft st ->
  timeUpShown st = false
  /\ warningShown st' = true /\ timeUpShown st' = false.
Proof.
  unfold warningShown, timeUpShown, warningThreshold.
  intros H M [P L]. apply andb_true_iff in H as [H1 H2].
  apply Z.ltb_lt in H2. rewrite M.
  split; [apply Z.eqb_neq; lia|]. split; [|apply Z.eqb_neq; lia].
  apply andb_true_iff. split; [|apply Z.ltb_lt; exact P].
  apply le_whole_down with (secondsLeft st); assumption.
Qed.

Lemma warning_stays_until_zero_witness :
  warningShown
    (run [(0, ClickStart); (225000, IntervalFires 1%nat)] initial) = true
  /\ warningShown
       (run [(0, ClickStart); (225000, IntervalFires 1%nat);
             (299000, IntervalFires 1%nat)] initial) = true.
Proof.
  split; [reflexivity|].
  refine (proj1 (proj2
    (warning_stays_until_zero
       (run [(0, ClickStart); (225000, IntervalFires 1%nat)] initial)
       (run [(0, ClickStart); (225000, IntervalFires 1%nat);
             (299000, IntervalFires 1%nat)] initial)
       eq_refl eq_refl _))).
  split; [reflexivity|discriminate].
Defined.

(** X12. A text in the minutes field that Set would refuse (not a number,
    or a number that is not positive) silences the warning: it is never
    shown, whatever the seconds are. *)
Theorem warning_silenced_by_refused_minutes (st : State) :
  minutesInput st <> "" ->
  JS.Number (minutesInput st) = JS.JNaN
  \/ JS.le (JS.Number (minutesInput st)) (JS.of_Z 0) = true ->
  snd (applyMinutes st) = Some "Enter minutes > 0"
  /\ warningShown st = false.
Proof.
  intros NE H. split.
  { unfold applyMinutes. destruct H as [H|H]; rewrite H; [reflexivity|].
    rewrite orb_true_r. reflexivity. }
  unfold warningShown, warningThreshold.
  rewrite or_else_nonempty by exact NE. cbn [ToNumber].
  destruct (Z.ltb_spec 0 (secondsLeft st)) as [P|P]; [|apply andb_false_r].
  rewrite andb_true_r.
  destruct H as [H|H]; [rewrite H; reflexivity|].
  apply quarter_of_negative; assumption.
Qed.

Lemma warning_silenced_by_refused_minutes_witness :
  warningShown
    (run [(0, ChangeMinutes "-3"); (1, ClickStart);
          (299000, IntervalFires 1%nat)] initial) = false.
Proof.
  refine (proj2
    (warning_silenced_by_refused_minutes
       (run [(0, ChangeMinutes "-3"); (1, ClickStart);
             (299000, IntervalFires 1%nat)] initial) _ _)).
  - discriminate.
  - right. vm_compute. reflexivity.
Defined.

(** X13. As long as nothing was ever typed in the minutes field, the ring
    has no value once the display reads 0: the fraction is 0/0, not a
    number.  This is the state after Reset and after the default countdown
    has run out. *)
Theorem ring_undefined_at_zero_without_minutes
  (evs : list (Z * action)) (now : Z) :
  forallb keeps_field evs = true ->
  (secondsLeft (run evs initial) = 0 ->
   progressFraction (run evs initial) = JS.JNaN)
  /\ progressFraction (run (evs ++ [(now, ClickReset)]) initial) = JS.JNaN.
Proof.
  intros K.
  assert (G : forall st, minutesInput st = "" -> secondsLeft st = 0 ->
                         progressFraction st = JS.JNaN).
  { intros st M Z0. unfold progressFraction, progressDivisor.
    rewrite M, Z0. reflexivity. }
  split.
  - intros Z0. apply G; [|exact Z0].
    rewrite run_minutesInput by exact K. reflexivity.
  - rewrite run_app. cbn [run]. apply G.
    + rewrite step_minutesInput by reflexivity.
      rewrite run_minutesInput by exact K. reflexivity.
    + rewrite reset_step by apply reachable_wf. reflexivity.
Qed.

Lemma ring_undefined_at_zero_without_minutes_witness :
  forallb keeps_field [(0, ClickStart); (300000, IntervalFires 1%nat)] = true
  /\ progressFraction
       (run [(0, ClickStart); (300000, IntervalFires 1%nat)] initial)
     = JS.JNaN.
Proof.
  split; [reflexivity|].
  exact (proj1
    (ring_undefined_at_zero_without_minutes
       [(0, ClickStart); (300000, IntervalFires 1%nat)] 0 eq_refl) eq_refl).
Defined.

End Invariant.

(** ** The upload relay *)

Section RelayProperties.
Import Relay.

Lemma has_space_cons c s :
  has_space (String c s) = JS.is_space c || has_space s.
Proof. reflexivity. Qed.

Lemma append_cons c (a b : string) : String c a ++ b = String c (a ++ b).
Proof. reflexivity. Qed.

Lemma append_assoc (a b c : string) : a ++ b ++ c = (a ++ b) ++ c.
Proof.
  induction a as [|x a IH]; [reflexivity|].
  rewrite !append_cons, IH. reflexivity.
Qed.

Lemma has_space_app a b :
  has_space (a ++ b) = has_space a || has_space b.
Proof.
  induction a as [|c a IH]; [reflexivity|].
  rewrite append_cons, !has_space_cons, IH. apply orb_assoc.
Qed.

Lemma replace_spaces_clean in_run s :
  has_space (replace_spaces in_run s) = false.
Proof.
  revert in_run. induction s as [|c s IH]; intros in_run; [reflexivity|].
  cbn [replace_spaces]. destruct (JS.is_space c) eqn:C.
  - destruct in_run; [apply IH|]. rewrite has_space_cons, IH. reflexivity.
  - rewrite has_space_cons, C, IH. reflexivity.
Qed.

Lemma uint_digits_clean d :
  has_space (DecimalString.NilEmpty.string_of_uint d) = false.
Proof.
  induction d; cbn [DecimalString.NilEmpty.string_of_uint];
    rewrite ?has_space_cons, ?IHd; reflexivity.
Qed.

Lemma toString_clean n : has_space (toString n) = false.
Proof.
  unfold toString, DecimalString.NilZero.string_of_int,
    DecimalString.NilZero.string_of_uint.
  destruct (Z.to_int n) as [d|d]; destruct d; try reflexivity;
    rewrite ?has_space_cons; apply uint_digits_clean.
Qed.

Lemma prefix_append a b : String.prefix a (a ++ b) = true.
Proof.
  induction a as [|c a IH]; [destruct b; reflexivity|].
  rewrite append_cons. cbn [String.prefix].
  destruct (ascii_dec c c); [exact IH|congruence].
Qed.

Lemma to_int_nonnil z :
  Z.to_int z <> Decimal.Pos Decimal.Nil
  /\ Z.to_int z <> Decimal.Neg Decimal.Nil.
Proof.
  destruct z as [|p|p]; cbn; split; try discriminate;
    intros [= H]; exact (DecimalPos.Unsigned.to_uint_nonnil p H).
Qed.

(** The clock reading can be read back from its decimal writing. *)
Lemma toString_parses n :
  option_map Z.of_int (DecimalString.NilZero.int_of_string (toString n))
  = Some n.
Proof.
  unfold toString. destruct (to_int_nonnil n) as [A B].
  rewrite (DecimalString.NilZero.isi _ A B). cbn [option_map].
  rewrite DecimalZ.of_to. reflexivity.
Qed.

Lemma letters_cons c s :
  letters (String c s)
  = if negb (JS.is_space c) && negb (Ascii.eqb c "-")
    then c :: letters s else letters s.
Proof. reflexivity. Qed.

Lemma replace_spaces_letters in_run s :
  letters (replace_spaces in_run s) = letters s.
Proof.
  revert in_run. induction s as [|c s IH]; intros in_run; [reflexivity|].
  cbn [replace_spaces]. rewrite (letters_cons c s).
  destruct (JS.is_space c) eqn:C; cbn [negb andb].
  - destruct in_run; [apply IH|]. rewrite letters_cons, IH. reflexivity.
  - rewrite letters_cons, C, IH. reflexivity.
Qed.

(** A stretch without white space is copied. *)
Lemma replace_spaces_word w b :
  has_space w = false ->
  replace_spaces false (w ++ b) = w ++ replace_spaces false b.
Proof.
  induction w as [|c w IH]; intros H; [reflexivity|].
  rewrite has_space_cons in H. apply orb_false_iff in H as [C H].
  rewrite !append_cons. cbn [replace_spaces]. rewrite C, (IH H).
  reflexivity.
Qed.

Lemma all_space_cons c s :
  all_space (String c s) = JS.is_space c && all_space s.
Proof. reflexivity. Qed.

Lemma replace_spaces_in_run ws b :
  all_space ws = true -> begins_with_space b = false ->
  replace_spaces true (ws ++ b) = replace_spaces false b.
Proof.
  intros A B. induction ws as [|c ws IH].
  - destruct b as [|c b]; [reflexivity|].
    cbn [begins_with_space] in B. cbn [String.append replace_spaces].
    change (("" ++ String c b)%string) with (String c b).
    cbn [replace_spaces]. rewrite B. reflexivity.
  - rewrite all_space_cons in A. apply andb_true_iff in A as [C A].
    rewrite append_cons. cbn [replace_spaces]. rewrite C. apply IH, A.
Qed.

(** A maximal run of white space becomes one hyphen. *)
Lemma replace_spaces_run ws b :
  ws <> "" -> all_space ws = true -> begins_with_space b = false ->
  replace_spaces false (ws ++ b) = "-" ++ replace_spaces false b.
Proof.
  destruct ws as [|c ws]; [congruence|]. intros _ A B.
  rewrite all_space_cons in A. apply andb_true_iff in A as [C A].
  rewrite append_cons. cbn [replace_spaces]. rewrite C.
  rewrite (replace_spaces_in_run ws b A B). reflexivity.
Qed.

(** Text fields do not change what [upload.single] makes of a body. *)
Lemma single_texts field texts rest accepted :
  forallb is_text texts = true ->
  single field (texts ++ rest)%list accepted = single field rest accepted.
Proof.
  induction texts as [|p texts IH]; intros T; [reflexivity|].
  cbn [forallb] in T. apply andb_true_iff in T as [P T].
  destruct p as [name value|name f]; [|discriminate].
  cbn [app single]. apply IH, T.
Qed.

Lemma single_second_file field name g rest f :
  originalname g <> "" ->
  single field (FilePart name g :: rest) (Some f) = None.
Proof.
  intros G. cbn [single].
  destruct (String.eqb_spec (originalname g) ""); [contradiction|].
  reflexivity.
Qed.

(** C9, as the claim states it, fails.  A body whose only part is a file
    under the field name [photo] has no field [image], yet the request is
    not answered 400: [upload.single('image')] hands an error to Express,
    which answers 500.  And a body with a text field called [image] has the
    field, yet is answered 400, not 200. *)
Lemma upload_relay_counterexample :
  field_present "image" [FilePart "photo" {| originalname := "a.png" |}]
  = false
  /\ upload_route 1700000000000
       [FilePart "photo" {| originalname := "a.png" |}]
     = ExpressError 500
  /\ field_present "image" [TextPart "image" "a.png"] = true
  /\ upload_route 1700000000000 [TextPart "image" "a.png"]
     = Handled {| status := 400; body := Obj "error" "No file" |}.
Proof. repeat split; reflexivity. Qed.

(** C9, amended.  [POST /upload] is answered by what
    [upload.single('image')] makes of the body.  With text fields only,
    400 and [{"error": "No file"}].  With one named file, in the field
    [image], among text fields, 200 and [{"filename": "uploads/<name>"}].
    With a named file in any other field, or a second named file, the
    handler is not reached and Express answers 500.  The stored name is the
    clock reading in decimal (it can be read back), a hyphen, and the
    original name with white space replaced, not removed: a stretch without
    white space is copied, a maximal run of white space becomes one hyphen;
    no white space is left and the other characters are kept in order. *)
Theorem upload_relay_responses (now : Z) :
  (forall texts, forallb is_text texts = true ->
     upload_route now texts
     = Handled {| status := 400; body := Obj "error" "No file" |})
  /\ (forall before f after,
        forallb is_text before = true -> forallb is_text after = true ->
        originalname f <> "" ->
        upload_route now (before ++ FilePart "image" f :: after)
        = Handled
            {| status := 200;
               body := Obj "filename"
                         ("uploads/" ++ filename now (originalname f)) |})
  /\ (forall before field f after,
        forallb is_text before = true ->
        originalname f <> "" -> field <> "image" ->
        upload_route now (before ++ FilePart field f :: after)
        = ExpressError 500)
  /\ (forall before f between field g after,
        forallb is_text before = true -> forallb is_text between = true ->
        originalname f <> "" -> originalname g <> "" ->
        upload_route now
          (before ++ FilePart "image" f :: between
                  ++ FilePart field g :: after)
        = ExpressError 500)
  /\ (forall original,
        filename now original
        = toString now ++ "-" ++ replace_spaces false original
        /\ String.prefix (toString now ++ "-") (filename now original) = true
        /\ option_map Z.of_int
             (DecimalString.NilZero.int_of_string (toString now)) = Some now
        /\ has_space (filename now original) = false
        /\ letters (replace_spaces false original) = letters original)
  /\ (forall word rest, has_space word = false ->
        replace_spaces false (word ++ rest)
        = word ++ replace_spaces false rest)
  /\ (forall run rest,
        run <> "" -> all_space run = true -> begins_with_space rest = false ->
        replace_spaces false (run ++ rest)
        = "-" ++ replace_spaces false rest)
  /\ filename 1700000000000 "my  holiday photo.png"
     = "1700000000000-my-holiday-photo.png".
Proof.
  split; [|split; [|split; [|split; [|split; [|split; [|split]]]]]].
  - intros texts T. unfold upload_route.
    rewrite <- (app_nil_r texts), (single_texts _ _ [] None T).
    reflexivity.
  - intros before f after B A F. unfold upload_route.
    rewrite (single_texts _ _ _ None B). cbn [single].
    destruct (String.eqb_spec (originalname f) ""); [contradiction|].
    cbn [String.eqb Ascii.eqb Bool.eqb].
    rewrite <- (app_nil_r after), (single_texts _ _ [] _ A).
    reflexivity.
  - intros before field f after B F N. unfold upload_route.
    rewrite (single_texts _ _ _ None B). cbn [single].
    destruct (String.eqb_spec (originalname f) ""); [contradiction|].
    destruct (String.eqb_spec field "image"); [contradiction|].
    reflexivity.
  - intros before f between field g after B M F G. unfold upload_route.
    rewrite (single_texts _ _ _ None B). cbn [single].
    destruct (String.eqb_spec (originalname f) ""); [contradiction|].
    cbn [String.eqb Ascii.eqb Bool.eqb].
    rewrite (single_texts _ _ _ _ M), (single_second_file _ _ _ _ _ G).
    reflexivity.
  - intros original. split; [reflexivity|]. split; [|split; [|split]].
    + unfold filename. rewrite append_assoc. apply prefix_append.
    + apply toString_parses.
    + unfold filename. rewrite !has_space_app, toString_clean,
        replace_spaces_clean. reflexivity.
    + apply replace_spaces_letters.
  - apply replace_spaces_word.
  - apply replace_spaces_run.
  - vm_compute. reflexivity.
Qed.

Lemma upload_relay_responses_witness :
  upload_route 1700000000000
    ([TextPart "caption" "slide"]
       ++ FilePart "image" {| originalname := "my photo.png" |} :: [])
  = Handled
      {| status := 200;
         body := Obj "filename"
                   ("uploads/" ++ filename 1700000000000 "my photo.png") |}.
Proof.
  refine (proj1 (proj2 (upload_relay_responses 1700000000000))
            [TextPart "caption" "slide"]
            {| originalname := "my photo.png" |} [] eq_refl eq_refl _).
  discriminate.
Defined.

End RelayProperties.

(** ** The clock face *)

Section ClockFace.
Import Display.

Example formatTime_samples :
  formatTime 5 = "00:00:05" /\ formatTime 3661 = "01:01:01"
  /\ formatTime 0 = "00:00:00"
  /\ formatTime 360000 = "100:00:00"
  /\ formatTime 86399 = "23:59:59".
Proof. vm_compute. repeat split; reflexivity. Qed.

Lemma padded_two (n : Z) :
  0 <= n < 100 -> padStart 2 "0" (Relay.toString n) = two_digits n.
Proof.
  intros B.
  assert (T : forallb
                (fun k => String.eqb
                            (padStart 2 "0" (Relay.toString (Z.of_nat k)))
                            (two_digits (Z.of_nat k)))
                (seq 0 100) = true) by (vm_compute; reflexivity).
  rewrite forallb_forall in T.
  specialize (T (Z.to_nat n)). rewrite Z2Nat.id in T by lia.
  apply String.eqb_eq, T. apply in_seq. lia.
Qed.

Lemma digit_inj a b :
  0 <= a < 10 -> 0 <= b < 10 -> digit a = digit b -> a = b.
Proof.
  intros A B E. unfold digit in E.
  apply (f_equal N_of_ascii) in E.
  rewrite !N_ascii_embedding in E by lia. lia.
Qed.

Lemma two_digits_inj a b :
  0 <= a < 100 -> 0 <= b < 100 -> two_digits a = two_digits b -> a = b.
Proof.
  intros A B E. unfold two_digits in E. injection E as E1 E2.
  apply digit_inj in E1; [|split; [apply Z.div_pos; lia
                                  |apply Z.div_lt_upper_bound; lia]..].
  apply digit_inj in E2; [|apply Z.mod_pos_bound; lia..].
  rewrite (Z.div_mod a 10), (Z.div_mod b 10) by lia. lia.
Qed.

Lemma formatTime_fields s :
  0 <= s ->
  0 <= s / 3600 /\ 0 <= Z.rem s 3600 / 60 < 60 /\ 0 <= Z.rem s 60 < 60
  /\ s = 3600 * (s / 3600) + 60 * (Z.rem s 3600 / 60) + Z.rem s 60.
Proof.
  intros P. rewrite !Z.rem_mod_nonneg by lia.
  Z.to_euclidean_division_equations. lia.
Qed.

(** X14. For a display of less than 100 hours, [formatTime] gives exactly
    eight characters, [HH:MM:SS]: two decimal digits each for the whole
    hours, the minutes below 60 and the seconds below 60, with a leading
    zero where needed. *)
Theorem formatTime_fixed_width (s : Z) :
  0 <= s < 360000 ->
  formatTime s = clock_face (s / 3600) (s mod 3600 / 60) (s mod 60)
  /\ String.length (formatTime s) = 8%nat
  /\ s mod 3600 / 60 < 60 /\ s mod 60 < 60.
Proof.
  intros [P U].
  destruct (formatTime_fields s P) as (H & M & S & _).
  assert (H' : s / 3600 < 100) by (apply Z.div_lt_upper_bound; lia).
  assert (F : formatTime s
              = clock_face (s / 3600) (s mod 3600 / 60) (s mod 60)).
  { unfold formatTime. rewrite !Z.rem_mod_nonneg in * by lia.
    rewrite !padded_two by lia. reflexivity. }
  rewrite !Z.rem_mod_nonneg in * by lia.
  split; [exact F|]. split; [rewrite F; reflexivity|]. lia.
Qed.

Lemma formatTime_fixed_width_witness :
  0 <= 3725 < 360000 /\ String.length (formatTime 3725) = 8%nat.
Proof.
  assert (B : 0 <= 3725 < 360000) by lia.
  split; [exact B|]. exact (proj1 (proj2 (formatTime_fixed_width 3725 B))).
Defined.

(** X15. Below 100 hours, two different numbers of seconds never look the
    same on the clock face. *)
Theorem formatTime_injective (s1 s2 : Z) :
  0 <= s1 < 360000 -> 0 <= s2 < 360000 -> s1 <> s2 ->
  formatTime s1 <> formatTime s2.
Proof.
  intros [P1 U1] [P2 U2] NE E. apply NE. clear NE.
  destruct (formatTime_fields s1 P1) as (H1 & M1 & S1 & R1).
  destruct (formatTime_fields s2 P2) as (H2 & M2 & S2 & R2).
  assert (H1' : s1 / 3600 < 100) by (apply Z.div_lt_upper_bound; lia).
  assert (H2' : s2 / 3600 < 100) by (apply Z.div_lt_upper_bound; lia).
  unfold formatTime in E. rewrite !padded_two in E by lia.
  set (h1 := s1 / 3600) in *. set (h2 := s2 / 3600) in *.
  set (m1 := Z.rem s1 3600 / 60) in *. set (m2 := Z.rem s2 3600 / 60) in *.
  set (c1 := Z.rem s1 60) in *. set (c2 := Z.rem s2 60) in *.
  unfold two_digits in E. injection E as Eh1 Eh2 Em1 Em2 Ec1 Ec2.
  assert (Eh : h1 = h2).
  { apply two_digits_inj; [lia|lia|]. unfold two_digits. congruence. }
  assert (Em : m1 = m2).
  { apply two_digits_inj; [lia|lia|]. unfold two_digits. congruence. }
  assert (Ec : c1 = c2).
  { apply two_digits_inj; [lia|lia|]. unfold two_digits. congruence. }
  lia.
Qed.

Lemma formatTime_injective_witness :
  0 <= 59 < 360000 /\ 0 <= 60 < 360000 /\ 59 <> 60
  /\ formatTime 59 <> formatTime 60.
Proof.
  assert (B1 : 0 <= 59 < 360000) by lia.
  assert (B2 : 0 <= 60 < 360000) by lia.
  assert (NE : 59 <> 60) by lia.
  split; [exact B1|]. split; [exact B2|]. split; [exact NE|].
  exact (formatTime_injective 59 60 B1 B2 NE).
Defined.

End ClockFace.

(** ** More on the stored file names *)

Section StoredNames.
Import Relay.

Lemma replace_spaces_clean_id in_run s :
  has_space s = false -> replace_spaces in_run s = s.
Proof.
  revert in_run. induction s as [|c s IH]; intros in_run H; [reflexivity|].
  rewrite has_space_cons in H. apply orb_false_iff in H as [C H].
  cbn [replace_spaces]. rewrite C, (IH false H). reflexivity.
Qed.

(** X16. A name without white space is stored under itself, behind the clock
    reading and a hyphen; and cleaning a name a second time changes nothing
    more. *)
Theorem clean_names_are_kept (now : Z) (name : string) :
  (has_space name = false ->
   replace_spaces false name = name
   /\ filename now name = toString now ++ "-" ++ name)
  /\ replace_spaces false (replace_spaces false name)
     = replace_spaces false name.
Proof.
  split.
  - intros H. unfold filename.
    rewrite (replace_spaces_clean_id false name H). auto.
  - apply replace_spaces_clean_id, replace_spaces_clean.
Qed.

Lemma clean_names_are_kept_witness :
  has_space "slide-03.png" = false
  /\ filename 1700000000123 "slide-03.png"
     = toString 1700000000123 ++ "-" ++ "slide-03.png".
Proof.
  split; [reflexivity|].
  exact (proj2 (proj1 (clean_names_are_kept 1700000000123 "slide-03.png")
                  eq_refl)).
Defined.

Lemma length_append' (a b : string) :
  String.length (a ++ b) = (String.length a + String.length b)%nat.
Proof.
  induction a as [|c a IH]; [reflexivity|].
  rewrite append_cons. cbn [String.length]. rewrite IH. reflexivity.
Qed.

Lemma append_same_length (a b s t : string) :
  String.length a = String.length b -> a ++ s = b ++ t -> a = b.
Proof.
  revert b. induction a as [|c a IH]; intros [|d b] L E;
    try discriminate; [reflexivity|].
  rewrite !append_cons in E. injection E as -> E.
  f_equal. apply IH; [|exact E]. cbn [String.length] in L. lia.
Qed.

Lemma append_cancel_right (a b s : string) : a ++ s = b ++ s -> a = b.
Proof.
  intros E. apply append_same_length with s s; [|exact E].
  apply (f_equal String.length) in E. rewrite !length_append' in E. lia.
Qed.

Lemma toString_inj a b : toString a = toString b -> a = b.
Proof.
  unfold toString. intros E. apply DecimalZ.to_int_inj.
  assert (N : forall z, Z.to_int z <> Decimal.Pos Decimal.Nil
                        /\ Z.to_int z <> Decimal.Neg Decimal.Nil).
  { intros [|p|p]; cbn; split; try discriminate;
      intros [= H]; exact (DecimalPos.Unsigned.to_uint_nonnil p H). }
  destruct (N a) as [A1 A2]. destruct (N b) as [B1 B2].
  pose proof (DecimalString.NilZero.isi _ A1 A2) as Ia.
  pose proof (DecimalString.NilZero.isi _ B1 B2) as Ib.
  rewrite E in Ia. congruence.
Qed.

(** X17. The clock reading is all that tells two uploads of the same file
    apart: their stored names differ exactly when the readings differ, so
    two uploads of one name within the same millisecond get the same stored
    name. *)
Theorem stored_names_differ_by_clock (now1 now2 : Z) (name : string) :
  filename now1 name = filename now2 name <-> now1 = now2.
Proof.
  split; [|intros ->; reflexivity].
  unfold filename. intros E. apply toString_inj.
  apply append_cancel_right with ("-" ++ replace_spaces false name).
  exact E.
Qed.

End StoredNames.

(** ** The backdrop *)

Section BackdropProperties.
Import Backdrop.

Lemma is_blob_nonempty u : is_blob u = true -> negb (String.eqb u "") = true.
Proof. destruct u; [discriminate|reflexivity]. Qed.

Lemma revoke_if_blob_tidy st :
  tidy st ->
  objectURLs (revoke_if_blob st) = ∅
  /\ bgUrl (revoke_if_blob st) = bgUrl st
  /\ uploadingToServer (revoke_if_blob st) = uploadingToServer st.
Proof.
  intros T. unfold revoke_if_blob. destruct (bgUrl st) as [u|] eqn:B.
  - destruct (negb (String.eqb u "") && is_blob u) eqn:C; cbn.
    + split; [|auto]. apply set_eq. intros v. split; [|set_solver].
      intros I. apply elem_of_difference in I as [I N].
      destruct (T v I) as [E _]. rewrite B in E. injection E as ->.
      set_solver.
    + rewrite ?B. split; [|auto]. apply set_eq. intros v.
      split; [|set_solver]. intros I. destruct (T v I) as [E Bl].
      rewrite B in E. injection E as ->.
      rewrite Bl, (is_blob_nonempty _ Bl) in C. discriminate.
  - rewrite ?B. split; [|auto]. apply set_eq. intros v.
    split; [|set_solver]. intros I. destruct (T v I) as [E _].
    rewrite B in E. discriminate.
Qed.

Lemma fresh_url_is_blob st : is_blob (fresh_url st) = true.
Proof. apply prefix_append. Qed.

Lemma tidy_same st st' :
  bgUrl st' = bgUrl st -> objectURLs st' = objectURLs st ->
  tidy st -> tidy st'.
Proof. intros B O T u I. rewrite B. rewrite O in I. exact (T u I). Qed.

Lemma step_tidy a st : stays_local a = true -> tidy st -> tidy (step a st).
Proof.
  intros L T. destruct a as [[f|]|[f|]|[r|]|]; cbn [step].
  - unfold handleLocalUpload.
    destruct (revoke_if_blob_tidy st T) as (E & _ & _).
    intros u I. cbn [objectURLs bgUrl] in *. rewrite E in I.
    assert (u = fresh_url (revoke_if_blob st)) by set_solver. subst u.
    split; [reflexivity|apply fresh_url_is_blob].
  - exact T.
  - apply tidy_same with st; [reflexivity|reflexivity|exact T].
  - exact T.
  - cbn [stays_local] in L. unfold handleServerUpload_receives.
    destruct (ok r); [discriminate|].
    apply tidy_same with st; [reflexivity|reflexivity|exact T].
  - apply tidy_same with st; [reflexivity|reflexivity|exact T].
  - unfold clearBg. destruct (revoke_if_blob_tidy st T) as (E & _ & _).
    intros u I. cbn [objectURLs] in I. rewrite E in I. set_solver.
Qed.

(** X18. As long as no upload to the server succeeds, the component leaves
    no object URL behind: whatever is picked, cleared, or fails, the only
    object URL still registered is the one shown as backdrop, and after
    Clear BG none is. *)
Theorem local_backdrops_do_not_leak (acts : list action) :
  forallb stays_local acts = true ->
  (forall u, u ∈ objectURLs (run acts initial) ->
             bgUrl (run acts initial) = Some u)
  /\ objectURLs (clearBg (run acts initial)) = ∅
  /\ bgUrl (clearBg (run acts initial)) = None.
Proof.
  intros L.
  assert (T : tidy (run acts initial)).
  { assert (G : forall acts st, forallb stays_local acts = true ->
                                tidy st -> tidy (run acts st)).
    { clear. induction acts as [|a acts IH]; intros st L T; [exact T|].
      cbn [forallb] in L. apply andb_true_iff in L as [L1 L2].
      cbn [run]. apply IH; [exact L2|]. apply step_tidy; assumption. }
    apply G; [exact L|]. intros u I. cbn in I. set_solver. }
  split; [intros u I; apply (T u I)|]. split.
  - unfold clearBg. cbn [objectURLs].
    apply (revoke_if_blob_tidy _ T).
  - reflexivity.
Qed.

Lemma local_backdrops_do_not_leak_witness :
  forallb stays_local
    [ChooseLocal (Some {| Relay.originalname := "a.png" |});
     ChooseLocal (Some {| Relay.originalname := "b.png" |});
     ServerAnswers None] = true
  /\ objectURLs
       (clearBg
          (run [ChooseLocal (Some {| Relay.originalname := "a.png" |});
                ChooseLocal (Some {| Relay.originalname := "b.png" |});
                ServerAnswers None] initial)) = ∅.
Proof.
  split; [reflexivity|].
  exact (proj1 (proj2
    (local_backdrops_do_not_leak
       [ChooseLocal (Some {| Relay.originalname := "a.png" |});
        ChooseLocal (Some {| Relay.originalname := "b.png" |});
        ServerAnswers None] eq_refl))).
Defined.

Lemma blob_is_not_http u s :
  is_blob u = true -> u <> "http://localhost:4000/" ++ s.
Proof. intros B ->. discriminate. Qed.

(** X19. A successful upload to the server replaces a local backdrop
    without revoking its object URL: the URL stays registered although it
    is no longer shown, and Clear BG afterwards does not release it
    either. *)
Theorem server_upload_leaves_object_url
  (st : State) (u : string) (r : Relay.Response) :
  bgUrl st = Some u -> is_blob u = true -> u ∈ objectURLs st ->
  ok r = true ->
  let st' := step (ServerAnswers (Some r)) st in
  bgUrl st' <> Some u /\ u ∈ objectURLs st'
  /\ u ∈ objectURLs (step ClickClearBg st')
  /\ bgUrl (step ClickClearBg st') = None.
Proof.
  intros B Bl I K. cbv zeta. cbn [step]. unfold handleServerUpload_receives.
  rewrite K. cbn [fst bgUrl objectURLs].
  split; [intros [= E]; exact (blob_is_not_http _ _ Bl (eq_sym E))|].
  split; [exact I|].
  unfold clearBg, revoke_if_blob. cbn [bgUrl objectURLs uploadingToServer].
  destruct (negb _ && is_blob _) eqn:C; cbn [objectURLs bgUrl].
  - split; [|reflexivity]. apply elem_of_difference. split; [exact I|].
    intros E. apply elem_of_singleton in E.
    exact (blob_is_not_http _ _ Bl E).
  - split; [exact I|reflexivity].
Qed.

Lemma server_upload_leaves_object_url_witness :
  let st := run [ChooseLocal (Some {| Relay.originalname := "a.png" |})]
              initial in
  bgUrl st = Some "blob:0" /\ is_blob "blob:0" = true
  /\ "blob:0" ∈ objectURLs
       (step ClickClearBg
          (step (ServerAnswers
                   (Some (Relay.post_upload 5
                            (Some {| Relay.originalname := "b.png" |}))))
             st)).
Proof.
  cbv zeta. split; [reflexivity|]. split; [reflexivity|].
  refine (proj1 (proj2 (proj2
    (server_upload_leaves_object_url
       (run [ChooseLocal (Some {| Relay.originalname := "a.png" |})] initial)
       "blob:0"
       (Relay.post_upload 5 (Some {| Relay.originalname := "b.png" |}))
       eq_refl eq_refl _ eq_refl)))).
  vm_compute. set_solver.
Defined.

(** X21. An answer that is not a success (the relay's 400 among them) or a
    request that fails leaves the backdrop and the object URLs as they
    were, clears the "Uploading..." flag and alerts the operator. *)
Theorem failed_upload_keeps_backdrop
  (answer : option Relay.Response) (st : State) :
  match answer with Some r => ok r = false | None => True end ->
  bgUrl (step (ServerAnswers answer) st) = bgUrl st
  /\ objectURLs (step (ServerAnswers answer) st) = objectURLs st
  /\ uploadingToServer (step (ServerAnswers answer) st) = false
  /\ snd (handleServerUpload_receives answer st)
     = Some "Upload failed. Is the server running on port 4000?".
Proof.
  intros H. cbn [step]. unfold handleServerUpload_receives.
  destruct answer as [r|]; [rewrite H|]; repeat split; reflexivity.
Qed.

Lemma failed_upload_keeps_backdrop_witness :
  ok (Relay.post_upload 7 None) = false
  /\ bgUrl (step (ServerAnswers (Some (Relay.post_upload 7 None)))
              (run [ChooseLocal (Some {| Relay.originalname := "a.png" |})]
                 initial))
     = Some "blob:0".
Proof.
  split; [reflexivity|].
  exact (proj1
    (failed_upload_keeps_backdrop (Some (Relay.post_upload 7 None))
       (run [ChooseLocal (Some {| Relay.originalname := "a.png" |})] initial)
       eq_refl)).
Defined.

End BackdropProperties.
